(** * Verum Omnis rule assets: a model of [scripts/generate-assets.py]

    The script builds two literal dictionaries, makes sure the directory
    [app/src/main/assets/rules] exists and writes each dictionary there
    with [json.dump(..., indent=2)].

    Layout of this development:
    - [Json]: the values the script builds, Python's [json] encoder with
      an indent, and a JSON reader used to observe the written text;
    - [Os]: a file system with permissions and a free-space counter, a
      standard output with its encoding, the exceptions of the calls,
      and the state-and-error monad the script runs in;
    - [Pathlib]: [Path], [Path.mkdir] and the [with open(...)] block;
    - [GenerateAssets]: the script itself, statement by statement;
    - [Observe] and [Behaviour]: what a run is observed by;
    - the lemmas and the theorems about the script, then further
      properties of its stages, of the encoder and of paths. *)

From stdpp Require Import gmap strings list pretty.
From Stdlib Require Import ZArith Ascii String.

#[local] Set Warnings "-register-all".
#[local] Open Scope string_scope.

(* ===================================================================== *)
(** ** JSON values, [json.dump] and a JSON reader *)
(* ===================================================================== *)

Module Json.

(** The Python values [json.dump] is given.  A [dict] keeps its keys in
    insertion order, so it is an association list.  A [str] is a
    sequence of code points; the model covers code points below 256,
    one per character of a Rocq string, which is enough for the strings
    of the script (all of them ASCII) but not for every Python string.
    The type is wider than Python in two ways, which [python_value]
    below rules out: an association list can repeat a key, and an
    integer can have more digits than the interpreter converts to text. *)
Inductive json : Type :=
| JNull
| JBool (b : bool)
| JInt (z : Z)
| JStr (s : string)
| JList (l : list json)
| JDict (d : list (string * json)).

Definition quote : ascii := "034"%char.
Definition backslash : ascii := "092"%char.
Definition LF : ascii := "010"%char.

Definition hex_digit (n : N) : ascii :=
  match String.get (N.to_nat n) "0123456789abcdef" with
  | Some c => c
  | None => "0"%char
  end.

(** ['\\u{0:04x}'.format(n)] *)
Definition escape_u (n : N) : string :=
  String backslash (String "u" (String (hex_digit (n / 4096 mod 16))
    (String (hex_digit (n / 256 mod 16)) (String (hex_digit (n / 16 mod 16))
      (String (hex_digit (n mod 16)) EmptyString))))).

(** [ESCAPE_DCT] and the [replace] function of
    [py_encode_basestring_ascii]: the pattern [ESCAPE_ASCII] selects
    the backslash, the double quote and every character outside the
    range from the space to the tilde. *)
Definition escape_char (c : ascii) : string :=
  let n := N_of_ascii c in
  if (n =? 92)%N then String backslash (String backslash EmptyString)
  else if (n =? 34)%N then String backslash (String quote EmptyString)
  else if (n =? 8)%N then String backslash "b"
  else if (n =? 12)%N then String backslash "f"
  else if (n =? 10)%N then String backslash "n"
  else if (n =? 13)%N then String backslash "r"
  else if (n =? 9)%N then String backslash "t"
  else if ((32 <=? n) && (n <=? 126))%N then String c EmptyString
  else escape_u n.

Fixpoint escape (s : string) : string :=
  match s with
  | EmptyString => EmptyString
  | String c s' => escape_char c +:+ escape s'
  end.

Definition encode_basestring_ascii (s : string) : string :=
  String quote (escape s +:+ String quote EmptyString).

Fixpoint spaces (n : nat) : string :=
  match n with
  | O => EmptyString
  | S n' => String " " (spaces n')
  end.

(** ['\n' + _indent * _current_indent_level] with [_indent = ' ' * indent] *)
Definition newline_indent (indent level : nat) : string :=
  String LF (spaces (indent * level)).

(** [JSONEncoder(indent=indent).iterencode(o)], joined.  With an indent
    the item separator is [','] and the key separator is [': ']. *)
Fixpoint encode (indent level : nat) (o : json) : string :=
  match o with
  | JNull => "null"
  | JBool true => "true"
  | JBool false => "false"
  | JInt z => pretty z
  | JStr s => encode_basestring_ascii s
  | JList [] => "[]"
  | JList l =>
      "[" +:+ newline_indent indent (S level)
      +:+ String.concat ("," +:+ newline_indent indent (S level))
            (map (encode indent (S level)) l)
      +:+ newline_indent indent level +:+ "]"
  | JDict [] => "{}"
  | JDict d =>
      "{" +:+ newline_indent indent (S level)
      +:+ String.concat ("," +:+ newline_indent indent (S level))
            (map (fun kv => encode_basestring_ascii (fst kv) +:+ ": "
                            +:+ encode indent (S level) (snd kv)) d)
      +:+ newline_indent indent level +:+ "}"
  end.

(** [json.dumps(o, indent=indent)] *)
Definition dumps (o : json) (indent : nat) : string := encode indent 0 o.

(** *** Reading JSON text back

    A recursive-descent reader for the grammar of RFC 8259 restricted
    to integer numbers and to [\u] escapes below 256.  An object is
    returned as the list of its members in textual order. *)

Definition is_ws (c : ascii) : bool :=
  let n := N_of_ascii c in
  ((n =? 32) || (n =? 9) || (n =? 10) || (n =? 13))%N.

Fixpoint skip_ws (s : string) : string :=
  match s with
  | String c s' => if is_ws c then skip_ws s' else s
  | EmptyString => s
  end.

Definition hex_value (c : ascii) : option N :=
  let n := N_of_ascii c in
  if ((48 <=? n) && (n <=? 57))%N then Some (n - 48)%N
  else if ((97 <=? n) && (n <=? 102))%N then Some (n - 87)%N
  else if ((65 <=? n) && (n <=? 70))%N then Some (n - 55)%N
  else None.

Definition unescape_u (a b c d : ascii) : option ascii :=
  match hex_value a, hex_value b, hex_value c, hex_value d with
  | Some 0%N, Some 0%N, Some h, Some l => Some (ascii_of_N (16 * h + l))
  | _, _, _, _ => None
  end.

(** The characters of a string after its opening quote, up to and
    including the closing quote. *)
Fixpoint read_chars (s : string) : option (string * string) :=
  match s with
  | EmptyString => None
  | String c s' =>
      let n := N_of_ascii c in
      if (n =? 34)%N then Some (EmptyString, s')
      else if (n =? 92)%N then
        match s' with
        | String e s'' =>
            let simple (r : ascii) :=
              match read_chars s'' with
              | Some (t, rest) => Some (String r t, rest)
              | None => None
              end in
            let m := N_of_ascii e in
            if (m =? 34)%N then simple quote
            else if (m =? 92)%N then simple backslash
            else if (m =? 47)%N then simple "/"%char
            else if (m =? 98)%N then simple "008"%char
            else if (m =? 102)%N then simple "012"%char
            else if (m =? 110)%N then simple "010"%char
            else if (m =? 114)%N then simple "013"%char
            else if (m =? 116)%N then simple "009"%char
            else if (m =? 117)%N then
              match s'' with
              | String a (String b (String x (String y s3))) =>
                  match unescape_u a b x y, read_chars s3 with
                  | Some r, Some (t, rest) => Some (String r t, rest)
                  | _, _ => None
                  end
              | _ => None
              end
            else None
        | EmptyString => None
        end
      else if (n <? 32)%N then None
      else
        match read_chars s' with
        | Some (t, rest) => Some (String c t, rest)
        | None => None
        end
  end.

Definition is_digit (c : ascii) : bool :=
  let n := N_of_ascii c in ((48 <=? n) && (n <=? 57))%N.

Fixpoint read_digits (acc : N) (s : string) : N * string :=
  match s with
  | String c s' =>
      if is_digit c then read_digits (10 * acc + (N_of_ascii c - 48))%N s'
      else (acc, s)
  | EmptyString => (acc, s)
  end.

(** An optional minus sign, then a zero or a digit sequence without a
    leading zero; not followed by a fraction or an exponent. *)
Definition read_int (s : string) : option (Z * string) :=
  let '(neg, s1) :=
    match s with
    | String "-" s' => (true, s')
    | _ => (false, s)
    end in
  match s1 with
  | String c s2 =>
      if is_digit c then
        let '(n, rest) := read_digits 0 s1 in
        let leading_zero :=
          match s2 with
          | String c2 _ => (N_of_ascii c =? 48)%N && is_digit c2
          | EmptyString => false
          end in
        let float_follows :=
          match rest with
          | String "." _ | String "e" _ | String "E" _ => true
          | _ => false
          end in
        if leading_zero || float_follows then None
        else Some (if neg then (- Z.of_N n)%Z else Z.of_N n, rest)
      else None
  | EmptyString => None
  end.

Definition strip_prefix (p s : string) : option string :=
  if String.prefix p s
  then Some (String.substring (String.length p)
               (String.length s - String.length p) s)
  else None.

Fixpoint read_value (fuel : nat) (s : string) : option (json * string) :=
  match fuel with
  | O => None
  | S fuel' =>
      match skip_ws s with
      | String "{" s1 =>
          match skip_ws s1 with
          | String "}" s2 => Some (JDict [], s2)
          | _ =>
              match read_members fuel' s1 with
              | Some (d, rest) => Some (JDict d, rest)
              | None => None
              end
          end
      | String "[" s1 =>
          match skip_ws s1 with
          | String "]" s2 => Some (JList [], s2)
          | _ =>
              match read_elements fuel' s1 with
              | Some (l, rest) => Some (JList l, rest)
              | None => None
              end
          end
      | String c s1 as s0 =>
          if (N_of_ascii c =? 34)%N then
            match read_chars s1 with
            | Some (t, rest) => Some (JStr t, rest)
            | None => None
            end
          else
            match strip_prefix "null" s0, strip_prefix "true" s0,
                  strip_prefix "false" s0 with
            | Some rest, _, _ => Some (JNull, rest)
            | _, Some rest, _ => Some (JBool true, rest)
            | _, _, Some rest => Some (JBool false, rest)
            | None, None, None =>
                match read_int s0 with
                | Some (z, rest) => Some (JInt z, rest)
                | None => None
                end
            end
      | EmptyString => None
      end
  end
(** one or more values separated by commas, then the closing bracket *)
with read_elements (fuel : nat) (s : string) : option (list json * string) :=
  match fuel with
  | O => None
  | S fuel' =>
      match read_value fuel' s with
      | Some (v, s1) =>
          match skip_ws s1 with
          | String "]" s2 => Some ([v], s2)
          | String "," s2 =>
              match read_elements fuel' s2 with
              | Some (l, rest) => Some (v :: l, rest)
              | None => None
              end
          | _ => None
          end
      | None => None
      end
  end
(** one or more [key: value] members, then the closing brace *)
with read_members (fuel : nat) (s : string)
    : option (list (string * json) * string) :=
  match fuel with
  | O => None
  | S fuel' =>
      match skip_ws s with
      | String c s1 =>
          if (N_of_ascii c =? 34)%N then
            match read_chars s1 with
            | Some (k, s2) =>
                match skip_ws s2 with
                | String ":" s3 =>
                    match read_value fuel' s3 with
                    | Some (v, s4) =>
                        match skip_ws s4 with
                        | String "}" s5 => Some ([(k, v)], s5)
                        | String "," s5 =>
                            match read_members fuel' s5 with
                            | Some (d, rest) => Some ((k, v) :: d, rest)
                            | None => None
                            end
                        | _ => None
                        end
                    | None => None
                    end
                | _ => None
                end
            | None => None
            end
          else None
      | EmptyString => None
      end
  end.

(** [json.loads(s)], members kept in textual order: one value, then
    only white space.  No call nests deeper than the text is long.  On
    a text that repeats a key of an object [json.loads] keeps the last
    member only; such texts are not written by [dumps] on a
    [python_value]. *)
Definition loads (s : string) : option json :=
  match read_value (S (String.length s)) s with
  | Some (v, rest) =>
      match skip_ws rest with
      | EmptyString => Some v
      | _ => None
      end
  | None => None
  end.

(** [o[k]] on a dictionary. *)
Fixpoint assoc (k : string) (d : list (string * json)) : option json :=
  match d with
  | [] => None
  | (k', v) :: d' => if String.eqb k k' then Some v else assoc k d'
  end.

Definition get (k : string) (o : json) : option json :=
  match o with
  | JDict d => assoc k d
  | _ => None
  end.

(** [o[k1][k2]...] *)
Fixpoint get_path (ks : list string) (o : json) : option json :=
  match ks with
  | [] => Some o
  | k :: ks' =>
      match get k o with
      | Some v => get_path ks' v
      | None => None
      end
  end.

Definition keys (o : json) : list string :=
  match o with
  | JDict d => map fst d
  | _ => []
  end.

Fixpoint distinct (l : list string) : bool :=
  match l with
  | [] => true
  | k :: l' => negb (existsb (String.eqb k) l') && distinct l'
  end.

(** The values of type [json] that are Python values [json.dump]
    writes: the keys of every dictionary are distinct, and every integer
    has at most 4300 digits, the default limit of the conversion between
    [int] and [str]. *)
Fixpoint python_value (o : json) : bool :=
  match o with
  | JInt z => (Z.abs z <? 10 ^ 4300)%Z
  | JList l => forallb python_value l
  | JDict d =>
      distinct (map fst d) && forallb (fun kv => python_value (snd kv)) d
  | _ => true
  end.

End Json.

(* ===================================================================== *)
(** ** The operating system: files, directories, exceptions *)
(* ===================================================================== *)

Module Os.

(** The exceptions the calls of the script raise in this model: the
    subclasses of [OSError] of the file system calls, where
    [NoSpaceError] stands for [OSError(errno.ENOSPC)], and the
    [UnicodeEncodeError] of [print]. *)
Inductive exn : Type :=
| FileNotFoundError
| FileExistsError
| NotADirectoryError
| IsADirectoryError
| PermissionError
| NoSpaceError
| UnicodeEncodeError.

Inductive result (A : Type) : Type :=
| Ok (a : A)
| Raise (e : exn).
Arguments Ok {A} a.
Arguments Raise {A} e.

(** A node of the directory tree under the working directory.
    [writable] is the effective write permission of the process: on a
    directory, the right to add entries; on a file, to change its data. *)
Inductive node : Type :=
| File (writable : bool) (data : string)
| Dir (writable : bool) (entries : gmap string node).

(** The state the script acts on: the tree rooted at the working
    directory, the bytes still free on the disk, the lines printed on
    standard output, and whether the encoding of standard output
    represents characters outside ASCII, the check mark among them
    (UTF-8 does; the ASCII encoding of the C locale does not).

    The disk is a counter of bytes.  A real file system allocates
    blocks and may run out of room when a directory is created, so the
    exact point at which this disk is full is particular to the model;
    the statements about the script take the success or the failure of
    a call as a hypothesis where that point would matter. *)
Record world : Type := World {
  root : node;
  free : N;
  stdout : list string;
  stdout_unicode : bool
}.

(** State and exceptions: an exception leaves the state as the failing
    call left it. *)
Definition IO (A : Type) : Type := world → result A * world.

Definition ret {A} (a : A) : IO A := λ w, (Ok a, w).

Definition raise {A} (e : exn) : IO A := λ w, (Raise e, w).

Definition bind {A B} (m : IO A) (k : A → IO B) : IO B :=
  λ w, match m w with
       | (Ok a, w') => k a w'
       | (Raise e, w') => (Raise e, w')
       end.

(** [try: m  except OSError as e: h e] *)
Definition try_except {A} (m : IO A) (h : exn → IO A) : IO A :=
  λ w, match m w with
       | (Ok a, w') => (Ok a, w')
       | (Raise e, w') => h e w'
       end.

(** [os.stat]: follow the components from the node [n]. *)
Fixpoint stat (n : node) (p : list string) : result node :=
  match p with
  | [] => Ok n
  | c :: p' =>
      match n with
      | File _ _ => Raise NotADirectoryError
      | Dir _ ents =>
          match ents !! c with
          | None => Raise FileNotFoundError
          | Some ch => stat ch p'
          end
      end
  end.

(** Resolve the directory [p] below [n] and change its entries with
    [k], which is given the directory's write permission. *)
Fixpoint in_dir (k : bool → gmap string node → result (gmap string node))
    (n : node) (p : list string) : result node :=
  match n with
  | File _ _ => Raise NotADirectoryError
  | Dir w ents =>
      match p with
      | [] =>
          match k w ents with
          | Ok ents' => Ok (Dir w ents')
          | Raise e => Raise e
          end
      | c :: p' =>
          match ents !! c with
          | None => Raise FileNotFoundError
          | Some ch =>
              match in_dir k ch p' with
              | Ok ch' => Ok (Dir w (<[c := ch']> ents))
              | Raise e => Raise e
              end
          end
      end
  end.

(** [os.mkdir]: the entry must be new and the directory writable; the
    new directory is empty and, as under any umask that leaves the
    owner the right to write, writable.  It takes no room on the disk
    of the model. *)
Definition mkdir_entry (name : string) (w : bool) (ents : gmap string node)
    : result (gmap string node) :=
  match ents !! name with
  | Some _ => Raise FileExistsError
  | None => if w then Ok (<[name := Dir true ∅]> ents)
            else Raise PermissionError
  end.

(** [open(..., O_WRONLY | O_CREAT | O_TRUNC)]: an existing file is
    emptied when it is writable; a new one needs a writable directory. *)
Definition open_entry (name : string) (w : bool) (ents : gmap string node)
    : result (gmap string node) :=
  match ents !! name with
  | Some (Dir _ _) => Raise IsADirectoryError
  | Some (File fw _) =>
      if fw then Ok (<[name := File fw EmptyString]> ents)
      else Raise PermissionError
  | None => if w then Ok (<[name := File true EmptyString]> ents)
            else Raise PermissionError
  end.

(** [write] on an open file appends to its data. *)
Definition append_entry (name s : string) (_ : bool)
    (ents : gmap string node) : result (gmap string node) :=
  match ents !! name with
  | Some (File fw d) => Ok (<[name := File fw (d +:+ s)]> ents)
  | _ => Raise FileNotFoundError
  end.

Definition size (s : string) : N := N.of_nat (String.length s).

(** The bytes a file holds, [0] for anything else. *)
Definition size_at (n : node) (p : list string) : N :=
  match stat n p with
  | Ok (File _ d) => size d
  | _ => 0%N
  end.

Definition mkdir (dir : list string) (name : string) : IO unit :=
  λ w, match in_dir (mkdir_entry name) (root w) dir with
       | Ok r => (Ok (), World r (free w) (stdout w) (stdout_unicode w))
       | Raise e => (Raise e, w)
       end.

Definition is_dir (p : list string) : IO bool :=
  λ w, (Ok (match stat (root w) p with
            | Ok (Dir _ _) => true
            | _ => false
            end), w).

(** Emptying a file gives its bytes back to the disk. *)
Definition open_w (dir : list string) (name : string) : IO unit :=
  λ w, match in_dir (open_entry name) (root w) dir with
       | Ok r => (Ok (), World r (free w + size_at (root w) (dir ++ [name]))
                           (stdout w) (stdout_unicode w))
       | Raise e => (Raise e, w)
       end.

(** [write] on an open file.  When the disk has room for [s] it is
    appended; otherwise as much of [s] as fits is written, the disk is
    full and the call raises [NoSpaceError]. *)
Definition write (dir : list string) (name s : string) : IO unit :=
  λ w, if (size s <=? free w)%N then
         match in_dir (append_entry name s) (root w) dir with
         | Ok r => (Ok (), World r (free w - size s) (stdout w)
                             (stdout_unicode w))
         | Raise e => (Raise e, w)
         end
       else
         match in_dir (append_entry name
                         (String.substring 0 (N.to_nat (free w)) s))
                 (root w) dir with
         | Ok r => (Raise NoSpaceError,
                    World r 0 (stdout w) (stdout_unicode w))
         | Raise e => (Raise e, w)
         end.

Fixpoint is_ascii (s : string) : bool :=
  match s with
  | EmptyString => true
  | String c s' => (N_of_ascii c <? 128)%N && is_ascii s'
  end.

(** [print(s)]: the text is encoded for standard output before any of
    it is written.  Every encoding represents ASCII; a text with other
    characters raises [UnicodeEncodeError] on a stream that does not
    represent them, and nothing is printed. *)
Definition print (s : string) : IO unit :=
  λ w, if is_ascii s || stdout_unicode w
       then (Ok (), World (root w) (free w) (stdout w ++ [s])
                      (stdout_unicode w))
       else (Raise UnicodeEncodeError, w).

End Os.

Notation "'do' x <- m1 'then' m2" := (Os.bind m1 (λ x, m2))
  (at level 10, x name, m1 at level 100, m2 at level 200,
   format "'[v' 'do'  x  <-  m1  'then' '/' m2 ']'").
Notation "m1 >>> m2" := (Os.bind m1 (λ _, m2))
  (at level 100, m2 at level 200, right associativity,
   format "'[v' m1  >>> '/' m2 ']'").

(* ===================================================================== *)
(** ** [pathlib.Path], [open] and [json.dump] *)
(* ===================================================================== *)

Module Pathlib.
Import Os.

(** A relative path: the working directory, or a name below a parent. *)
Inductive PosixPath : Type :=
| Cwd
| Child (parent : PosixPath) (name : string).

Fixpoint parts (p : PosixPath) : list string :=
  match p with
  | Cwd => []
  | Child q n => parts q ++ [n]
  end.

(** Cut [s] at every slash; [cur] holds the component being read,
    reversed. *)
Fixpoint split_slash (cur : string) (s : string) : list string :=
  match s with
  | EmptyString => [String.rev cur]
  | String c s' =>
      if Ascii.eqb c "/" then String.rev cur :: split_slash EmptyString s'
      else split_slash (String c cur) s'
  end.

(** [self / key] for a relative [key]: empty components and [.] are
    dropped. *)
Definition truediv (self : PosixPath) (key : string) : PosixPath :=
  fold_left (λ p c, if String.eqb c EmptyString || String.eqb c "."
                    then p else Child p c)
    (split_slash EmptyString key) self.

(** [Path(s)] for a relative [s]. *)
Definition Path (s : string) : PosixPath := truediv Cwd s.

(** [str(self)] *)
Definition str (p : PosixPath) : string :=
  match p with
  | Cwd => "."
  | _ => String.concat "/" (parts p)
  end.

Definition os_mkdir (p : PosixPath) : IO unit :=
  match p with
  | Cwd => raise FileExistsError
  | Child q n => Os.mkdir (parts q) n
  end.

Definition is_dir (p : PosixPath) : IO bool := Os.is_dir (parts p).

(** The handler [except OSError] of [Path.mkdir]:
    [if not exist_ok or not self.is_dir(): raise]. *)
Definition mkdir_exists (self : PosixPath) (exist_ok : bool) (e : exn)
    : IO unit :=
  do d <- is_dir self then
  if negb exist_ok || negb d then raise e else ret ().

(** [Path.mkdir(parents, exist_ok)].  The handler of
    [FileNotFoundError] re-raises [if not parents or self.parent == self],
    and otherwise runs [self.parent.mkdir(parents=True, exist_ok=True)]
    and then [self.mkdir(parents=False, exist_ok=exist_ok)], which is
    the inner [try_except]. *)
Fixpoint mkdir (self : PosixPath) (parents exist_ok : bool) : IO unit :=
  try_except (os_mkdir self) (λ e,
    match e with
    | FileNotFoundError =>
        match self with
        | Cwd => raise e
        | Child parent _ =>
            if negb parents then raise e
            else
              mkdir parent true true >>>
              try_except (os_mkdir self) (λ e',
                match e' with
                | FileNotFoundError => raise e'
                | _ => mkdir_exists self exist_ok e'
                end)
        end
    | _ => mkdir_exists self exist_ok e
    end).

(** The text file a [with open(path, "w") as f] block works on. *)
Record file : Type := TextIO { f_dir : list string; f_name : string }.

Definition open_w (p : PosixPath) : IO file :=
  match p with
  | Cwd => raise IsADirectoryError
  | Child q n => Os.open_w (parts q) n >>> ret (TextIO (parts q) n)
  end.

(** [with open(p, "w") as f: body f].  Every write reaches the disk at
    once, so leaving the block has nothing left to flush.  The file is a
    POSIX text file: a character below 128 is written as the byte of the
    same value and a line feed stays a line feed. *)
Definition with_open_w {A} (p : PosixPath) (body : file → IO A) : IO A :=
  do f <- open_w p then body f.

(** [json.dump(obj, fp, indent=indent)] writes the chunks of the
    encoder one after the other; on this disk that leaves the same
    state as writing their concatenation. *)
Definition json_dump (obj : Json.json) (fp : file) (indent : nat) : IO unit :=
  Os.write (f_dir fp) (f_name fp) (Json.dumps obj indent).

End Pathlib.

(* ===================================================================== *)
(** ** The script *)
(* ===================================================================== *)

Module GenerateAssets.
Import Json Os Pathlib.

(** The check mark U+2705 that starts each printed line, in UTF-8. *)
Definition check_mark : string :=
  String "226" (String "156" (String "133" EmptyString)).

Definition assets_dir : PosixPath := Path "app/src/main/assets/rules".

(** Dishonesty Matrix *)
Definition dishonesty_matrix : json :=
  JDict [
    ("version", JStr "1.0");
    ("contradictions", JDict [
      ("weight", JInt 3);
      ("examples", JList [JStr "Opposing statements vs evidence"]);
      ("patterns", JList [
        JStr "no deal.*invoice";
        JStr "denied.*admitted";
        JStr "refused.*accepted";
        JStr "never.*always"
      ])
    ]);
    ("omissions", JDict [
      ("weight", JInt 2);
      ("examples", JList [JStr "Cropped screenshots"]);
      ("patterns", JList [
        JStr "selective.*edit";
        JStr "missing.*context";
        JStr "cropped.*screenshot"
      ])
    ]);
    ("manipulations", JDict [
      ("weight", JInt 3);
      ("examples", JList [JStr "Altered documents"]);
      ("patterns", JList [
        JStr "modified.*original";
        JStr "altered.*date"
      ])
    ])
  ].

(** Extraction Protocol *)
Definition extraction_protocol : json :=
  JDict [
    ("version", JStr "1.0");
    ("step1_keywords", JList [
      JStr "admin"; JStr "deny"; JStr "forged"; JStr "access"; JStr "delete";
      JStr "refuse"; JStr "invoice"; JStr "profit"; JStr "transfer";
      JStr "payment"
    ]);
    ("step2_tags", JList [
      JStr "#Cybercrime"; JStr "#Fraud"; JStr "#Oppression";
      JStr "#FiduciaryBreach"
    ]);
    ("step3_scoring", JDict [
      ("low", JDict [("weight", JInt 1); ("color", JStr "#4CAF50")]);
      ("medium", JDict [("weight", JInt 2); ("color", JStr "#FF9800")]);
      ("high", JDict [("weight", JInt 3); ("color", JStr "#F44336")])
    ])
  ].

Definition create_rule_assets : IO unit :=
  Pathlib.mkdir assets_dir true true >>>
  with_open_w (truediv assets_dir "dishonesty_matrix.json")
    (λ f, json_dump dishonesty_matrix f 2) >>>
  print (check_mark +:+ " Created: " +:+ str assets_dir
         +:+ "/dishonesty_matrix.json") >>>
  with_open_w (truediv assets_dir "extraction_protocol.json")
    (λ f, json_dump extraction_protocol f 2) >>>
  print (check_mark +:+ " Created: " +:+ str assets_dir
         +:+ "/extraction_protocol.json") >>>
  print (String LF check_mark +:+ " Rule assets generated successfully!").

(** [if __name__ == "__main__": create_rule_assets()]: the exit status
    of the interpreter is 0 when the call returns, and 1 when it ends
    with an exception, which nothing catches. *)
Definition main (w : world) : Z * world :=
  match create_rule_assets w with
  | (Ok _, w') => (0%Z, w')
  | (Raise _, w') => (1%Z, w')
  end.

End GenerateAssets.

(* ===================================================================== *)
(** ** The vocabulary of the statements *)
(* ===================================================================== *)

(** What a file holds after a run, the record shapes of the two
    documents, and the checks on the written text.  These follow the
    words of the specification; the theorems compare them with the
    script above. *)
Module Observe.
Import Json Os Pathlib GenerateAssets.

Definition dm_path : PosixPath := truediv assets_dir "dishonesty_matrix.json".
Definition ep_path : PosixPath := truediv assets_dir "extraction_protocol.json".

(** The node at [p] is a regular file. *)
Definition file_at (n : node) (p : list string) (fw : bool) (d : string)
    : Prop :=
  stat n p = Ok (File fw d).

Definition is_file (n : node) (p : list string) : Prop :=
  ∃ fw d, file_at n p fw d.

(** The text of the file at [p], when there is one. *)
Definition read_text (w : world) (p : PosixPath) : option string :=
  match stat (root w) (parts p) with
  | Ok (File _ d) => Some d
  | _ => None
  end.

Definition is_directory (n : node) (p : list string) : Prop :=
  ∃ dw ents, stat n p = Ok (Dir dw ents).

(** *** Creating a directory with its missing ancestors

    [chain p] is a fresh directory holding the nested fresh directories
    named by [p]; [mkdir_p n p] walks [p] from [n], keeps what exists,
    and hangs the fresh chain where the first component is missing.  It
    has no result when a component is a regular file or the directory
    that lacks a component is not writable. *)
Fixpoint chain (p : list string) : node :=
  match p with
  | [] => Dir true ∅
  | c :: p' => Dir true {[c := chain p']}
  end.

Fixpoint mkdir_p (n : node) (p : list string) : option node :=
  match n with
  | File _ _ => None
  | Dir w ents =>
      match p with
      | [] => Some n
      | c :: p' =>
          match ents !! c with
          | Some ch =>
              match mkdir_p ch p' with
              | Some ch' => Some (Dir w (<[c := ch']> ents))
              | None => None
              end
          | None => if w then Some (Dir w (<[c := chain p']> ents)) else None
          end
      end
  end.

(** [put n p x]: the tree [n] with the node at [p] replaced by [x]. *)
Fixpoint put (n : node) (p : list string) (x : node) : node :=
  match p with
  | [] => x
  | c :: p' =>
      match n with
      | File _ _ => n
      | Dir w ents =>
          match ents !! c with
          | Some ch => Dir w (<[c := put ch p' x]> ents)
          | None => n
          end
      end
  end.

(** A leaf has nothing below it: no entry, a file, or an empty
    directory. *)
Definition leaf (o : option node) : Prop :=
  match o with
  | Some (Dir _ e) => e = ∅
  | _ => True
  end.

(** [k] acts on the entry [name] only, which is a leaf before and
    after. *)
Definition entry_op (name : string)
    (k : bool → gmap string node → result (gmap string node)) : Prop :=
  ∀ dw ents ents', k dw ents = Ok ents' →
    (∀ c, c ≠ name → ents' !! c = ents !! c)
    ∧ leaf (ents !! name) ∧ leaf (ents' !! name).

(** What [Path.mkdir(parents=True, exist_ok=True)] is to return in the
    world [w] when [mkdir_p] has the result [o]: the new tree and
    nothing else changed, or an exception and nothing changed at all. *)
Definition mkdir_outcome (w : world) (o : option node)
    (res : result unit * world) : Prop :=
  match o with
  | Some t => res = (Ok (), World t (free w) (stdout w) (stdout_unicode w))
  | None => ∃ e, res = (Raise e, w)
  end.

(** What [p] shows of itself: its permission, and its data when it is
    a file; not the entries of a directory. *)
Definition attr (n : node) (p : list string) : result (bool * option string) :=
  match stat n p with
  | Ok (File fw d) => Ok (fw, Some d)
  | Ok (Dir dw _) => Ok (dw, None)
  | Raise e => Raise e
  end.

(** Every path outside [fs] shows the same in [n'] as in [n], or exists
    in neither. *)
Definition same_except (fs : list (list string)) (n n' : node) : Prop :=
  ∀ q a, q ∉ fs → attr n' q = Ok a ↔ attr n q = Ok a.

(** Every path outside [fs] holds the same file in [n'] as in [n], or
    no file in either. *)
Definition same_files_except (fs : list (list string)) (n n' : node)
    : Prop :=
  ∀ q fw d, q ∉ fs → file_at n' q fw d ↔ file_at n q fw d.

(** [open(..., "w")] can succeed on the entry [name] of [dir]: the
    entry is a writable file, or it is missing and [dir] is writable. *)
Definition openable (n : node) (dir : list string) (name : string) : bool :=
  match stat n dir with
  | Ok (Dir dw ents) =>
      match ents !! name with
      | Some (File fw _) => fw
      | Some (Dir _ _) => false
      | None => dw
      end
  | _ => false
  end.

(** [attr] without the exception. *)
Definition attr_ok (n : node) (p : list string) : option (bool * option string) :=
  match attr n p with
  | Ok a => Some a
  | Raise _ => None
  end.

(** The two texts the script writes, and where. *)
Definition dm_text : string := dumps dishonesty_matrix 2.
Definition ep_text : string := dumps extraction_protocol 2.
Definition rules : list string := parts assets_dir.
Definition dm_file : list string := parts dm_path.
Definition ep_file : list string := parts ep_path.

(** The worlds of the model in which nothing stops the script:
    standard output takes the check mark, the directory can be
    created, both files can be opened for writing, and the disk has
    room for each text once the old data of the file is given back. *)
Definition run_ready (w : world) : Prop :=
  ∃ t, stdout_unicode w = true
       ∧ mkdir_p (root w) rules = Some t
       ∧ openable t rules "dishonesty_matrix.json" = true
       ∧ openable t rules "extraction_protocol.json" = true
       ∧ (size dm_text <= free w + size_at t dm_file)%N
       ∧ (size ep_text
          <= free w + size_at t dm_file - size dm_text + size_at t ep_file)%N.

(** The lines the script prints when it runs to its end. *)
Definition printed : list string :=
  [check_mark +:+ " Created: app/src/main/assets/rules/dishonesty_matrix.json";
   check_mark +:+ " Created: app/src/main/assets/rules/extraction_protocol.json";
   String LF check_mark +:+ " Rule assets generated successfully!"].

(** *** The schema of section 3 of the specification *)

Record Category : Type := {
  weight : Z;
  examples : list string;
  patterns : list string
}.

Record DishonestyMatrix : Type := {
  dm_version : string;
  contradictions : Category;
  omissions : Category;
  manipulations : Category
}.

Record Severity : Type := {
  severity_weight : Z;
  color : string
}.

Record ExtractionProtocol : Type := {
  ep_version : string;
  step1_keywords : list string;
  step2_tags : list string;
  low : Severity;
  medium : Severity;
  high : Severity
}.

Fixpoint as_strings (l : list json) : option (list string) :=
  match l with
  | [] => Some []
  | JStr s :: l' =>
      match as_strings l' with
      | Some ss => Some (s :: ss)
      | None => None
      end
  | _ :: _ => None
  end.

Definition as_string_list (o : json) : option (list string) :=
  match o with
  | JList l => as_strings l
  | _ => None
  end.

(** A record with exactly the keys [weight], [examples], [patterns]. *)
Definition as_category (o : json) : option Category :=
  match o with
  | JDict [(k1, JInt z); (k2, e); (k3, p)] =>
      if String.eqb k1 "weight" && String.eqb k2 "examples"
         && String.eqb k3 "patterns"
      then match as_string_list e, as_string_list p with
           | Some es, Some ps => Some (Build_Category z es ps)
           | _, _ => None
           end
      else None
  | _ => None
  end.

Definition as_dishonesty_matrix (o : json) : option DishonestyMatrix :=
  match o with
  | JDict [(k0, JStr v); (k1, c); (k2, om); (k3, m)] =>
      if String.eqb k0 "version" && String.eqb k1 "contradictions"
         && String.eqb k2 "omissions" && String.eqb k3 "manipulations"
      then match as_category c, as_category om, as_category m with
           | Some c', Some om', Some m' =>
               Some (Build_DishonestyMatrix v c' om' m')
           | _, _, _ => None
           end
      else None
  | _ => None
  end.

(** A record with exactly the keys [weight] and [color]. *)
Definition as_severity (o : json) : option Severity :=
  match o with
  | JDict [(k1, JInt z); (k2, JStr c)] =>
      if String.eqb k1 "weight" && String.eqb k2 "color"
      then Some (Build_Severity z c)
      else None
  | _ => None
  end.

Definition as_extraction_protocol (o : json) : option ExtractionProtocol :=
  match o with
  | JDict [(k0, JStr v); (k1, kw); (k2, tags);
           (k3, JDict [(s1, lo); (s2, me); (s3, hi)])] =>
      if String.eqb k0 "version" && String.eqb k1 "step1_keywords"
         && String.eqb k2 "step2_tags" && String.eqb k3 "step3_scoring"
         && String.eqb s1 "low" && String.eqb s2 "medium"
         && String.eqb s3 "high"
      then match as_string_list kw, as_string_list tags,
                 as_severity lo, as_severity me, as_severity hi with
           | Some kw', Some tags', Some lo', Some me', Some hi' =>
               Some (Build_ExtractionProtocol v kw' tags' lo' me' hi')
           | _, _, _, _, _ => None
           end
      else None
  | _ => None
  end.

(** The text of a file, read as JSON and then as a record. *)
Definition parsed {A} (decode : json → option A) (text : option string)
    : option A :=
  match text with
  | Some t =>
      match loads t with
      | Some o => decode o
      | None => None
      end
  | None => None
  end.

(** *** Checks on the written text *)

Definition continuation (c : ascii) : bool :=
  let n := N_of_ascii c in ((128 <=? n) && (n <=? 191))%N.

Definition between (lo hi : N) (c : ascii) : bool :=
  let n := N_of_ascii c in ((lo <=? n) && (n <=? hi))%N.

(** Well-formed UTF-8 (no overlong forms, no surrogates, at most
    U+10FFFF). *)
Fixpoint utf8_valid (s : string) : bool :=
  match s with
  | EmptyString => true
  | String c s1 =>
      let n := N_of_ascii c in
      if (n <? 128)%N then utf8_valid s1
      else if between 194 223 c then
        match s1 with
        | String c1 s2 => continuation c1 && utf8_valid s2
        | _ => false
        end
      else if between 224 239 c then
        match s1 with
        | String c1 (String c2 s3) =>
            (if (n =? 224)%N then between 160 191 c1
             else if (n =? 237)%N then between 128 159 c1
             else continuation c1)
            && continuation c2 && utf8_valid s3
        | _ => false
        end
      else if between 240 244 c then
        match s1 with
        | String c1 (String c2 (String c3 s4)) =>
            (if (n =? 240)%N then between 144 191 c1
             else if (n =? 244)%N then between 128 143 c1
             else continuation c1)
            && continuation c2 && continuation c3 && utf8_valid s4
        | _ => false
        end
      else false
  end.

Definition opener (c : ascii) : bool :=
  Ascii.eqb c "[" || Ascii.eqb c "{".

Definition closer (c : ascii) : bool :=
  Ascii.eqb c "]" || Ascii.eqb c "}".

Definition next_is (ok : ascii → bool) (s : string) : bool :=
  match s with
  | String c _ => ok c
  | EmptyString => false
  end.

(** One item per line, each line indented by [unit] spaces per open
    bracket: outside strings, a comma ends its line, an opening bracket
    ends its line unless its closing bracket follows at once, and a line
    starts with [unit * depth] spaces, where a closing bracket at the
    start of a line already counts as closed.  [lead] is the number of
    spaces read since the start of the line, when nothing else was. *)
Fixpoint indented (unit depth : nat) (in_str esc : bool)
    (lead : option nat) (s : string) : bool :=
  match s with
  | EmptyString => true
  | String c s' =>
      if in_str then
        if esc then indented unit depth true false None s'
        else if Ascii.eqb c backslash then indented unit depth true true None s'
        else if Ascii.eqb c quote then indented unit depth false false None s'
        else indented unit depth true false None s'
      else
        match lead with
        | Some k =>
            if Ascii.eqb c " " then
              indented unit depth false false (Some (S k)) s'
            else
              (k =? unit * (if closer c then pred depth else depth))%nat
              && (if opener c then
                    next_is (λ x, Ascii.eqb x LF || closer x) s'
                    && indented unit (S depth) false false None s'
                  else if closer c then
                    indented unit (pred depth) false false None s'
                  else if Ascii.eqb c LF then
                    indented unit depth false false (Some 0%nat) s'
                  else indented unit depth (Ascii.eqb c quote) false None s')
        | None =>
            if opener c then
              next_is (λ x, Ascii.eqb x LF || closer x) s'
              && indented unit (S depth) false false None s'
            else if closer c then
              indented unit (pred depth) false false None s'
            else if Ascii.eqb c "," then
              next_is (Ascii.eqb LF) s'
              && indented unit depth false false None s'
            else if Ascii.eqb c LF then
              indented unit depth false false (Some 0%nat) s'
            else indented unit depth (Ascii.eqb c quote) false None s'
        end
  end.

Definition indented_by (unit : nat) (text : string) : bool :=
  indented unit 0 false false (Some 0%nat) text.

(** The keys of every dictionary of [o], outermost first, each list in
    the order of the dictionary. *)
Fixpoint key_order (o : json) : list (list string) :=
  match o with
  | JDict d => map fst d :: flat_map (λ kv, key_order (snd kv)) d
  | JList l => flat_map key_order l
  | _ => []
  end.

(** The value of every [weight] key of [o], at any depth. *)
Fixpoint weights (o : json) : list json :=
  match o with
  | JDict d =>
      flat_map (λ kv, app (if String.eqb (fst kv) "weight" then [snd kv]
                           else []) (weights (snd kv))) d
  | JList l => flat_map weights l
  | _ => []
  end.

Definition weight_in_range (v : json) : bool :=
  match v with
  | JInt z => (1 <=? z)%Z && (z <=? 3)%Z
  | _ => false
  end.

Definition starts_with_hash (s : string) : bool :=
  match s with
  | String c _ => Ascii.eqb c "#"
  | EmptyString => false
  end.

Definition is_hex (c : ascii) : bool :=
  match hex_value c with
  | Some _ => true
  | None => false
  end.

(** A hash sign followed by exactly six hexadecimal digits. *)
Definition is_hex_color (s : string) : bool :=
  match s with
  | String c r =>
      Ascii.eqb c "#" && (String.length r =? 6)%nat
      && forallb is_hex (list_ascii_of_string r)
  | EmptyString => false
  end.

(** The text of a file read as JSON. *)
Definition read_json (w : world) (p : PosixPath) : option json :=
  parsed Some (read_text w p).

(** *** The script as a sequence of statements *)

Fixpoint seq (l : list (IO unit)) : IO unit :=
  match l with
  | [] => ret ()
  | m :: l' => m >>> seq l'
  end.

(** The statements of [create_rule_assets], in order. *)
Definition steps : list (IO unit) :=
  [ Pathlib.mkdir assets_dir true true;
    with_open_w dm_path (λ f, json_dump dishonesty_matrix f 2);
    print (check_mark +:+ " Created: " +:+ str assets_dir
           +:+ "/dishonesty_matrix.json");
    with_open_w ep_path (λ f, json_dump extraction_protocol f 2);
    print (check_mark +:+ " Created: " +:+ str assets_dir
           +:+ "/extraction_protocol.json");
    print (String LF check_mark +:+ " Rule assets generated successfully!") ].

(** The statements after the first. *)
Definition after_mkdir : IO unit :=
  with_open_w (truediv assets_dir "dishonesty_matrix.json")
    (λ f, json_dump dishonesty_matrix f 2) >>>
  print (check_mark +:+ " Created: " +:+ str assets_dir
         +:+ "/dishonesty_matrix.json") >>>
  with_open_w (truediv assets_dir "extraction_protocol.json")
    (λ f, json_dump extraction_protocol f 2) >>>
  print (check_mark +:+ " Created: " +:+ str assets_dir
         +:+ "/extraction_protocol.json") >>>
  print (String LF check_mark +:+ " Rule assets generated successfully!").

(** *** The documents as records, and some worlds *)

Definition expected_dm : DishonestyMatrix := {|
  dm_version := "1.0";
  contradictions := {|
    weight := 3;
    examples := ["Opposing statements vs evidence"];
    patterns := ["no deal.*invoice"; "denied.*admitted";
                 "refused.*accepted"; "never.*always"] |};
  omissions := {|
    weight := 2;
    examples := ["Cropped screenshots"];
    patterns := ["selective.*edit"; "missing.*context";
                 "cropped.*screenshot"] |};
  manipulations := {|
    weight := 3;
    examples := ["Altered documents"];
    patterns := ["modified.*original"; "altered.*date"] |}
|}.

Definition expected_ep : ExtractionProtocol := {|
  ep_version := "1.0";
  step1_keywords := ["admin"; "deny"; "forged"; "access"; "delete";
                     "refuse"; "invoice"; "profit"; "transfer"; "payment"];
  step2_tags := ["#Cybercrime"; "#Fraud"; "#Oppression"; "#FiduciaryBreach"];
  low := {| severity_weight := 1; color := "#4CAF50" |};
  medium := {| severity_weight := 2; color := "#FF9800" |};
  high := {| severity_weight := 3; color := "#F44336" |}
|}.

Definition assets_path : list string := ["app"; "src"; "main"; "assets"].

(** The directory [x] reached through fresh writable directories. *)
Fixpoint under (p : list string) (x : node) : node :=
  match p with
  | [] => x
  | c :: p' => Dir true {[c := under p' x]}
  end.

(** An empty, writable working directory, 5000 free bytes and a
    standard output in UTF-8. *)
Definition fresh_world : world := World (Dir true ∅) 5000 [] true.

(** The same with a standard output in ASCII. *)
Definition ascii_world : world := World (Dir true ∅) 5000 [] false.

(** The rules directory already holds a note and an older matrix. *)
Definition used_world : world :=
  World (under rules (Dir true {[ "NOTES.txt" := File false "keep me";
                                  "dishonesty_matrix.json" := File true "{}" ]}))
        5000 [] true.

(** [app/src/main/assets] is read-only and holds a writable [rules]. *)
Definition readonly_parent_world : world :=
  World (under ["app"; "src"; "main"]
           (Dir true {[ "assets" := Dir false {[ "rules" := Dir true ∅ ]} ]}))
        5000 [] true.

(** [app/src/main/assets] is read-only and empty. *)
Definition readonly_empty_parent_world : world :=
  World (under ["app"; "src"; "main"] (Dir true {[ "assets" := Dir false ∅ ]}))
        5000 [] true.

(** [app] is a directory and [app/src] a regular file. *)
Definition blocked_world : world :=
  World (Dir true {[ "app" := Dir true {[ "src" := File true "text" ]} ]})
        5000 [] true.

(** Every ancestor of the destination is a writable directory, and
    [rules] itself is a regular file. *)
Definition collision_world : world :=
  World (under assets_path (Dir true {[ "rules" := File true "text" ]}))
        5000 [] true.

(** The parent of the destination directory. *)
Definition assets : list string := assets_path.

End Observe.

(* ===================================================================== *)
(** ** More vocabulary: stages, printed lines, plain names *)
(* ===================================================================== *)

Module Behaviour.
Import Json Os Pathlib GenerateAssets Observe.

(** The two [with open(...)] blocks of the script. *)
Definition write_dm : IO unit :=
  with_open_w (Child assets_dir "dishonesty_matrix.json")
    (λ f, json_dump dishonesty_matrix f 2).

Definition write_ep : IO unit :=
  with_open_w (Child assets_dir "extraction_protocol.json")
    (λ f, json_dump extraction_protocol f 2).

(** The world after a [print]. *)
Definition printing (l : list string) (w : world) : world :=
  World (root w) (free w) (stdout w ++ l) (stdout_unicode w).

(** The exceptions of a [with open(...)] block of the model. *)
Definition write_error (e : exn) : Prop :=
  e = IsADirectoryError ∨ e = PermissionError ∨ e = NoSpaceError.

(** [q] is the destination directory or one of its ancestors below the
    working directory. *)
Definition on_the_way (q : list string) : Prop :=
  q ≠ [] ∧ ∃ r, rules = app q r.

(** The rules directory holds a read-only matrix. *)
Definition readonly_dm_world : world :=
  World (under rules (Dir true {[ "dishonesty_matrix.json" := File false "old" ]}))
        5000 [] true.

(** The rules directory holds a read-only protocol. *)
Definition readonly_ep_world : world :=
  World (under rules (Dir true {[ "extraction_protocol.json" := File false "old" ]}))
        5000 [] true.

(** The rules directory holds an older matrix of 14 bytes and the disk
    has 100 bytes left. *)
Definition small_disk_world : world :=
  World (under rules (Dir true {[ "dishonesty_matrix.json" := File true "{ old matrix }" ]}))
        100 [] true.

(** A line feed or a printable ASCII character. *)
Definition plain_char (c : ascii) : bool :=
  let n := N_of_ascii c in
  ((n =? 10) || ((32 <=? n) && (n <=? 126)))%N.

Fixpoint ascii_text (s : string) : bool :=
  match s with
  | EmptyString => true
  | String c s' => plain_char c && ascii_text s'
  end.

Fixpoint no_slash (s : string) : bool :=
  match s with
  | EmptyString => true
  | String c s' => negb (Ascii.eqb c "/") && no_slash s'
  end.

(** A file or directory name: not empty, not [.], without a slash. *)
Definition plain_name (s : string) : bool :=
  negb (String.eqb s EmptyString) && negb (String.eqb s ".") && no_slash s.

(** The fuel [read_value] needs for the text of [o]: one unit per
    nesting level and one per item of a list or dictionary. *)
Fixpoint need (o : json) : nat :=
  match o with
  | JList l => S (fold_right (λ v acc, S (Nat.max (need v) acc)) 0%nat l)
  | JDict d => S (fold_right (λ kv acc, S (Nat.max (need (snd kv)) acc)) 0%nat d)
  | _ => 1%nat
  end.

(** What can follow a value in a JSON text written by [encode]: the end
    of the text, a comma, or a line feed. *)
Definition follows (rest : string) : Prop :=
  rest = EmptyString
  ∨ (∃ r, rest = String "," r)
  ∨ (∃ r, rest = String LF r).

(** The characters a JSON value written by [encode] can start with. *)
Definition value_heads : list ascii :=
  list_ascii_of_string "-0123456789ntf[{" ++ [quote].

End Behaviour.

(* ===================================================================== *)
(** ** Lemmas on the directory tree *)
(* ===================================================================== *)

#[local] Open Scope list_scope.

Section Tree.
Import Os Observe.

Implicit Types (n m x : node) (p q r : list string) (c name : string).
Implicit Types (ents : gmap string node).

Lemma stat_app n p q :
  stat n (p ++ q) = match stat n p with
                    | Ok m => stat m q
                    | Raise e => Raise e
                    end.
Proof.
  revert n. induction p as [|c p IH]; intros n; [done|].
  destruct n as [|dw ents]; [done|]. cbn [app stat].
  destruct (ents !! c); [apply IH | done].
Qed.


Lemma stat_snoc_inv n p c x :
  stat n (p ++ [c]) = Ok x →
  ∃ dw ents, stat n p = Ok (Dir dw ents) ∧ ents !! c = Some x.
Proof.
  rewrite stat_app. destruct (stat n p) as [[|dw ents]|]; [done| |done].
  cbn [stat]. destruct (ents !! c) eqn:E; [|done].
  intros [= ->]. eauto.
Qed.

Lemma stat_snoc n p c dw ents :
  stat n p = Ok (Dir dw ents) →
  stat n (p ++ [c]) = match ents !! c with
                      | Some x => Ok x
                      | None => Raise FileNotFoundError
                      end.
Proof. intros H. rewrite stat_app, H. cbn [stat]. by destruct (ents !! c). Qed.

(** [in_dir] resolves the directory as [stat] does and replaces it. *)
Lemma in_dir_eq k n p :
  in_dir k n p =
  match stat n p with
  | Ok (Dir dw ents) =>
      match k dw ents with
      | Ok ents' => Ok (put n p (Dir dw ents'))
      | Raise e => Raise e
      end
  | Ok (File _ _) => Raise NotADirectoryError
  | Raise e => Raise e
  end.
Proof.
  revert n. induction p as [|c p IH]; intros [fw d|dw ents]; cbn [in_dir stat put]; try done.
  destruct (ents !! c) as [ch|] eqn:E; [|done].
  rewrite IH. destruct (stat ch p) as [[|dw' ents']|]; try done.
  by destruct (k dw' ents').
Qed.

Lemma stat_put n p m x : stat n p = Ok m → stat (put n p x) p = Ok x.
Proof.
  revert n. induction p as [|c p IH]; intros n; [done|].
  destruct n as [|dw ents]; [done|]. cbn [stat put].
  destruct (ents !! c) as [ch|] eqn:E; [|done].
  intros H. cbn [stat]. rewrite lookup_insert_eq. by apply IH.
Qed.

Lemma put_put n p x y : put (put n p x) p y = put n p y.
Proof.
  revert n. induction p as [|c p IH]; intros n; [done|].
  destruct n as [|dw ents]; [done|]. cbn [put].
  destruct (ents !! c) as [ch|] eqn:E; cbn [put]; [|by rewrite E].
  rewrite lookup_insert_eq, insert_insert_eq. by rewrite IH.
Qed.

Lemma put_same n p m : stat n p = Ok m → put n p m = n.
Proof.
  revert n. induction p as [|c p IH]; intros n; cbn [stat put].
  - by intros [= ->].
  - destruct n as [|dw ents]; [done|].
    destruct (ents !! c) as [ch|] eqn:E; [|done].
    intros H. rewrite (IH _ H). by rewrite insert_id.
Qed.

Lemma leaf_below ents name r dw x :
  leaf (ents !! name) → r ≠ [] → stat (Dir dw ents) (name :: r) ≠ Ok x.
Proof.
  cbn [stat]. intros L Hr.
  destruct (ents !! name) as [[|dw' e]|]; [| |done].
  - by destruct r.
  - cbn in L. subst e. destruct r as [|c r]; [done|]. cbn [stat].
    by rewrite lookup_empty.
Qed.

Lemma attr_below_leaf ents name r dw a :
  leaf (ents !! name) → r ≠ [] → attr (Dir dw ents) (name :: r) ≠ Ok a.
Proof.
  intros L Hr. unfold attr.
  destruct (stat (Dir dw ents) (name :: r)) as [x|] eqn:E; [|done].
  by destruct (leaf_below ents name r dw x).
Qed.

Lemma attr_cons dw ents c r :
  attr (Dir dw ents) (c :: r) = match ents !! c with
                                | Some ch => attr ch r
                                | None => Raise FileNotFoundError
                                end.
Proof. unfold attr. cbn [stat]. by destruct (ents !! c). Qed.

Lemma file_at_attr n q fw d : file_at n q fw d ↔ attr n q = Ok (fw, Some d).
Proof.
  unfold file_at, attr. destruct (stat n q) as [[]|]; split; congruence.
Qed.

Lemma is_directory_attr n q : is_directory n q ↔ ∃ dw, attr n q = Ok (dw, None).
Proof.
  unfold is_directory, attr. destruct (stat n q) as [[]|]; split.
  all: try (intros (? & ? & ?); congruence).
  all: try (intros (? & ?); congruence).
  - intros (? & ? & [= <- <-]). eauto.
  - intros (? & [= <-]). eauto.
Qed.

(** The frame of an operation on one entry: every other path shows the
    same as before, and no other path has come to exist. *)
Lemma in_dir_frame name k n n' p :
  entry_op name k →
  in_dir k n p = Ok n' →
  same_except [p ++ [name]] n n'.
Proof.
  intros Hk. revert n n'.
  induction p as [|c0 p IH]; intros [fw0 d0|dw ents] n'; cbn [in_dir]; try done.
  - destruct (k dw ents) as [ents'|] eqn:E; [|done].
    intros [= <-] q a Hq.
    destruct (Hk _ _ _ E) as (Hother & L & L').
    destruct q as [|c r]; [done|].
    destruct (decide (c = name)) as [->|Hc].
    + assert (r ≠ []) by (intros ->; apply Hq; by left).
      split; intros F; exfalso.
      * by apply (attr_below_leaf ents' name r dw a).
      * by apply (attr_below_leaf ents name r dw a).
    + rewrite !attr_cons. by rewrite Hother.
  - destruct (ents !! c0) as [ch|] eqn:E; [|done].
    destruct (in_dir k ch p) as [ch'|] eqn:E'; [|done].
    intros [= <-] q a Hq.
    destruct q as [|c r]; [done|].
    rewrite !attr_cons.
    destruct (decide (c = c0)) as [->|Hc].
    + rewrite lookup_insert_eq, E. apply (IH _ _ E').
      intros ->%list_elem_of_singleton. apply Hq. by left.
    + by rewrite lookup_insert_ne.
Qed.

Lemma mkdir_entry_op name : entry_op name (mkdir_entry name).
Proof.
  intros dw ents ents'. unfold mkdir_entry.
  destruct (ents !! name) eqn:E; [done|]. destruct dw; [|done].
  intros [= <-]. split_and!.
  - intros c Hc. by rewrite lookup_insert_ne.
  - done.
  - by rewrite lookup_insert_eq.
Qed.

Lemma open_entry_op name : entry_op name (open_entry name).
Proof.
  intros dw ents ents'. unfold open_entry.
  destruct (ents !! name) as [[fw d|]|] eqn:E; [| done|].
  - destruct fw; [|done]. intros [= <-]. split_and!.
    + intros c Hc. by rewrite lookup_insert_ne.
    + done.
    + by rewrite lookup_insert_eq.
  - destruct dw; [|done]. intros [= <-]. split_and!.
    + intros c Hc. by rewrite lookup_insert_ne.
    + done.
    + by rewrite lookup_insert_eq.
Qed.

Lemma append_entry_op name s : entry_op name (append_entry name s).
Proof.
  intros dw ents ents'. unfold append_entry.
  destruct (ents !! name) as [[fw d|]|] eqn:E; [| done|done].
  intros [= <-]. split_and!.
  - intros c Hc. by rewrite lookup_insert_ne.
  - done.
  - by rewrite lookup_insert_eq.
Qed.

End Tree.

Section MkdirP.
Import Os Pathlib Observe.

Implicit Types (n m x t : node) (p q r : list string) (c name : string).
Implicit Types (ents : gmap string node).

Lemma stat_raise n p e :
  stat n p = Raise e → e = FileNotFoundError ∨ e = NotADirectoryError.
Proof.
  revert n. induction p as [|c p IH]; intros n; [done|].
  destruct n as [|dw ents]; cbn [stat]; [intros [= <-]; by right|].
  destruct (ents !! c); [apply IH | intros [= <-]; by left].
Qed.

Lemma chain_is_directory p : is_directory (chain p) p.
Proof.
  induction p as [|c p IH]; [by eexists _, _|].
  unfold is_directory. cbn [chain stat]. by rewrite lookup_singleton_eq.
Qed.

Lemma mkdir_p_chain p q : mkdir_p (chain p) (p ++ q) = Some (chain (p ++ q)).
Proof.
  induction p as [|c p IH]; cbn [chain app mkdir_p].
  - destruct q as [|c q]; [done|]. cbn [mkdir_p chain].
    rewrite lookup_empty. by rewrite insert_empty.
  - rewrite lookup_singleton_eq, IH. by rewrite insert_singleton_eq.
Qed.

Lemma mkdir_p_existing n p : is_directory n p → mkdir_p n p = Some n.
Proof.
  revert n. induction p as [|c p IH]; intros n (dw & ents & H).
  - cbn in H. injection H as ->. done.
  - destruct n as [|dw0 e0]; [done|]. cbn [stat] in H. cbn [mkdir_p].
    destruct (e0 !! c) as [ch|] eqn:E; [|done].
    rewrite IH by by eexists _, _. by rewrite insert_id.
Qed.

Lemma mkdir_p_is_directory n p t : mkdir_p n p = Some t → is_directory t p.
Proof.
  revert n t. induction p as [|c p IH]; intros [|dw ents] t; cbn [mkdir_p]; try done.
  - intros [= <-]. by eexists _, _.
  - destruct (ents !! c) as [ch|] eqn:E.
    + destruct (mkdir_p ch p) as [ch'|] eqn:E'; [|done]. intros [= <-].
      unfold is_directory. cbn [stat]. rewrite lookup_insert_eq. by eapply IH.
    + destruct dw; [|done]. intros [= <-].
      unfold is_directory. cbn [stat]. rewrite lookup_insert_eq.
      apply chain_is_directory.
Qed.

Lemma mkdir_p_blocked n p q :
  (∃ fw d, stat n p = Ok (File fw d)) ∨ stat n p = Raise NotADirectoryError →
  q ≠ [] ∨ stat n p = Raise NotADirectoryError →
  mkdir_p n (p ++ q) = None.
Proof.
  revert n. induction p as [|c p IH]; intros n H Hq.
  - destruct H as [(fw & d & H)|H]; [|done]. cbn in H. injection H as ->.
    by destruct q.
  - destruct n as [|dw ents]; [done|]. cbn [stat] in *. cbn [app mkdir_p].
    destruct (ents !! c) as [ch|] eqn:E.
    + by rewrite IH.
    + destruct H as [(fw & d & H)|H]; done.
Qed.

(** Creating [p ++ q] is creating [p] and then [p ++ q]. *)
Lemma mkdir_p_app n p q :
  mkdir_p n (p ++ q) = match mkdir_p n p with
                       | Some t => mkdir_p t (p ++ q)
                       | None => None
                       end.
Proof.
  revert n. induction p as [|c p IH]; intros [|dw ents]; cbn [app mkdir_p]; try done.
  { by destruct q. }
  destruct (ents !! c) as [ch|] eqn:E.
  - rewrite IH. destruct (mkdir_p ch p) as [ch'|]; [|done].
    cbn [mkdir_p]. rewrite lookup_insert_eq.
    destruct (mkdir_p ch' (p ++ q)); [|done]. by rewrite insert_insert_eq.
  - destruct dw; [|done]. cbn [mkdir_p]. rewrite lookup_insert_eq, mkdir_p_chain.
    by rewrite insert_insert_eq.
Qed.

Lemma mkdir_p_missing n p q :
  stat n p = Raise FileNotFoundError →
  is_Some (mkdir_p n p) → is_Some (mkdir_p n (p ++ q)).
Proof.
  revert n. induction p as [|c p IH]; intros [|dw ents]; cbn [stat app mkdir_p]; try done.
  destruct (ents !! c) as [ch|] eqn:E.
  - intros H Hs. destruct (mkdir_p ch p) as [ch'|] eqn:E'; [|by destruct Hs].
    destruct (IH ch H) as [x ->]; by eauto.
  - destruct dw; by eauto.
Qed.

(** The last step: the parent directory exists. *)
Lemma mkdir_p_leaf n p c dw ents :
  stat n p = Ok (Dir dw ents) →
  mkdir_p n (p ++ [c]) =
  match ents !! c with
  | Some (Dir _ _) => Some n
  | Some (File _ _) => None
  | None => if dw then Some (put n p (Dir dw (<[c := Dir true ∅]> ents)))
            else None
  end.
Proof.
  revert n. induction p as [|c0 p IH]; intros n H.
  - cbn in H. injection H as ->. cbn [app mkdir_p put chain].
    destruct (ents !! c) as [[|dw' e']|] eqn:E; try done.
    cbn [mkdir_p]. by rewrite insert_id.
  - destruct n as [|dw0 e0]; [done|]. cbn [stat] in H. cbn [app mkdir_p put].
    destruct (e0 !! c0) as [ch|] eqn:E; [|done].
    rewrite (IH _ H).
    destruct (ents !! c) as [[|dw' e']|] eqn:E'; try done.
    + by rewrite insert_id.
    + by destruct dw.
Qed.

End MkdirP.

Section PathMkdir.
Import Os Pathlib Observe.

Implicit Types (n m x t : node) (p : PosixPath) (c name : string).
Implicit Types (ents : gmap string node) (w : world).

Lemma world_eta w :
  World (root w) (free w) (stdout w) (stdout_unicode w) = w.
Proof. by destruct w. Qed.

Lemma is_dir_true p w :
  is_directory (root w) (parts p) → is_dir p w = (Ok true, w).
Proof. intros (dw & ents & H). unfold is_dir, Os.is_dir. by rewrite H. Qed.

Lemma is_dir_false p w :
  ¬ is_directory (root w) (parts p) → is_dir p w = (Ok false, w).
Proof.
  intros H. unfold is_dir, Os.is_dir.
  destruct (stat (root w) (parts p)) as [[|dw ents]|] eqn:E; try done.
  destruct H. by eexists _, _.
Qed.

Lemma mkdir_exists_true p w e :
  is_directory (root w) (parts p) → mkdir_exists p true e w = (Ok (), w).
Proof. intros H. unfold mkdir_exists, bind. by rewrite is_dir_true. Qed.

Lemma mkdir_exists_false p w e :
  ¬ is_directory (root w) (parts p) → mkdir_exists p true e w = (Raise e, w).
Proof. intros H. unfold mkdir_exists, bind. by rewrite is_dir_false. Qed.

(** The attempt on the last component when its parent is a directory:
    [os.mkdir] raises [FileExistsError] or [PermissionError] there,
    never [FileNotFoundError]. *)
Lemma mkdir_attempt p c w (h : exn → IO unit) :
  is_directory (root w) (parts p) →
  (∀ e, e ≠ FileNotFoundError → h e = mkdir_exists (Child p c) true e) →
  mkdir_outcome w (mkdir_p (root w) (parts p ++ [c]))
    (try_except (os_mkdir (Child p c)) h w).
Proof.
  intros (dw & ents & H) Hh.
  rewrite (mkdir_p_leaf _ _ c _ _ H).
  unfold try_except, os_mkdir, Os.mkdir. rewrite in_dir_eq, H.
  unfold mkdir_entry.
  pose proof (stat_snoc _ _ c _ _ H) as Hs.
  destruct (ents !! c) as [[fw d|dw' e']|] eqn:E; cbn [mkdir_outcome].
  - exists FileExistsError. rewrite Hh by done.
    apply mkdir_exists_false. intros (? & ? & Hd). cbn [parts] in Hd. congruence.
  - rewrite Hh by done. rewrite mkdir_exists_true, world_eta; [done|].
    cbn [parts]. by eexists _, _.
  - destruct dw; [done|]. exists PermissionError. rewrite Hh by done.
    apply mkdir_exists_false. intros (? & ? & Hd). cbn [parts] in Hd. congruence.
Qed.

(** [Path.mkdir(parents=True, exist_ok=True)] creates what [mkdir_p]
    describes, and when it raises it has changed nothing. *)
Lemma mkdir_refines p w :
  mkdir_outcome w (mkdir_p (root w) (parts p)) (Pathlib.mkdir p true true w).
Proof.
  revert w. induction p as [|q IH c]; intros w.
  - cbn [Pathlib.mkdir parts]. unfold try_except, os_mkdir, raise.
    destruct (root w) as [fw d|dw ents] eqn:E; cbn [mkdir_p mkdir_outcome].
    + exists FileExistsError. apply mkdir_exists_false.
      intros (? & ? & Hd). cbn in Hd. congruence.
    + rewrite mkdir_exists_true; [by rewrite <- E, world_eta|].
      cbn. rewrite E. by eexists _, _.
  - cbn [parts].
    destruct (stat (root w) (parts q)) as [[fw d|dw ents]|e] eqn:E.
    + (* the parent is a regular file *)
      rewrite mkdir_p_blocked by (left + right; eauto; done).
      cbn [Pathlib.mkdir mkdir_outcome]. unfold try_except, os_mkdir, Os.mkdir.
      rewrite in_dir_eq, E. exists NotADirectoryError.
      apply mkdir_exists_false. intros (? & ? & Hd). cbn [parts] in Hd.
      rewrite stat_app, E in Hd. done.
    + (* the parent is a directory *)
      cbn [Pathlib.mkdir]. apply mkdir_attempt; [by eexists _, _|].
      by intros [].
    + destruct (stat_raise _ _ _ E) as [-> | ->].
      * (* a component of the parent is missing: create the parent *)
        cbn [Pathlib.mkdir]. unfold try_except at 1. unfold os_mkdir, Os.mkdir.
        rewrite in_dir_eq, E. cbn [negb]. unfold bind.
        specialize (IH w). rewrite mkdir_p_app.
        destruct (mkdir_p (root w) (parts q)) as [t|] eqn:Ep; cbn [mkdir_outcome] in IH.
        -- rewrite IH.
           pose proof (mkdir_attempt q c
                         (World t (free w) (stdout w) (stdout_unicode w))
             (λ e', match e' with
                    | FileNotFoundError => raise e'
                    | _ => mkdir_exists (Child q c) true e'
                    end)) as Ha.
           cbn [root free stdout stdout_unicode] in Ha.
           destruct (mkdir_p_missing (root w) (parts q) [c] E) as [t' Et'];
             [by rewrite Ep|].
           rewrite mkdir_p_app, Ep in Et'. rewrite Et' in Ha |- *.
           apply Ha; [by eapply mkdir_p_is_directory|]. by intros [].
        -- destruct IH as [e ->]. by exists e.
      * (* a component of the parent is a regular file *)
        rewrite mkdir_p_blocked by (right; done).
        cbn [Pathlib.mkdir mkdir_outcome]. unfold try_except, os_mkdir, Os.mkdir.
        rewrite in_dir_eq, E. exists NotADirectoryError.
        apply mkdir_exists_false. intros (? & ? & Hd). cbn [parts] in Hd.
        rewrite stat_app, E in Hd. done.
Qed.

End PathMkdir.

Section Steps.
Import Json Os Pathlib GenerateAssets Observe.

Implicit Types (n m x t : node) (p q : list string) (c name s : string).
Implicit Types (ents : gmap string node) (w : world).

Lemma same_except_refl fs n : same_except fs n n.
Proof. by intros q a _. Qed.

Lemma same_except_trans fs n1 n2 n3 :
  same_except fs n1 n2 → same_except fs n2 n3 → same_except fs n1 n3.
Proof. intros H1 H2 q a Hq. rewrite (H2 q a Hq). by apply H1. Qed.

Lemma same_except_weaken fs fs' n n' :
  fs ⊆ fs' → same_except fs n n' → same_except fs' n n'.
Proof. intros Hs H q a Hq. apply H. intros Hi. by apply Hq, Hs. Qed.

Lemma same_except_files fs n n' :
  same_except fs n n' → same_files_except fs n n'.
Proof. intros H q fw d Hq. rewrite !file_at_attr. by apply H. Qed.

Lemma same_files_except_trans fs n1 n2 n3 :
  same_files_except fs n1 n2 → same_files_except fs n2 n3 →
  same_files_except fs n1 n3.
Proof. intros H1 H2 q fw d Hq. rewrite (H2 q fw d Hq). by apply H1. Qed.

Lemma same_files_except_weaken fs fs' n n' :
  fs ⊆ fs' → same_files_except fs n n' → same_files_except fs' n n'.
Proof. intros Hs H q fw d Hq. apply H. intros Hi. by apply Hq, Hs. Qed.

Lemma chain_no_file p q fw d : ¬ file_at (chain p) q fw d.
Proof.
  unfold file_at. revert q.
  induction p as [|c p IH]; intros [|c' q]; cbn [chain stat]; try done.
  destruct (decide (c' = c)) as [->|Hc].
  - rewrite lookup_singleton_eq. apply IH.
  - by rewrite lookup_singleton_ne.
Qed.

(** Creating directories neither changes nor adds a file. *)
Lemma mkdir_p_frame n p t : mkdir_p n p = Some t → same_files_except [] n t.
Proof.
  revert n t. induction p as [|c p IH]; intros [|dw ents] t; cbn [mkdir_p]; try done.
  - by intros [= <-].
  - destruct (ents !! c) as [ch|] eqn:E.
    + destruct (mkdir_p ch p) as [ch'|] eqn:E'; [|done]. intros [= <-].
      intros [|c' q] fw d Hq; [done|]. unfold file_at. cbn [stat].
      destruct (decide (c' = c)) as [->|Hc].
      * rewrite lookup_insert_eq, E. apply (IH _ _ E'), not_elem_of_nil.
      * by rewrite lookup_insert_ne.
    + destruct dw; [|done]. intros [= <-].
      intros [|c' q] fw d Hq; [done|]. unfold file_at. cbn [stat].
      destruct (decide (c' = c)) as [->|Hc].
      * rewrite lookup_insert_eq, E. split; [|done].
        intros F. by destruct (chain_no_file p q fw d).
      * by rewrite lookup_insert_ne.
Qed.

Lemma openable_spec n dir name :
  openable n dir name = true ↔
  ∃ dw ents ents', stat n dir = Ok (Dir dw ents)
                   ∧ open_entry name dw ents = Ok ents'.
Proof.
  unfold openable, open_entry.
  destruct (stat n dir) as [[|dw ents]|]; [split; [done|by intros (?&?&?&?&?)]| |split; [done|by intros (?&?&?&?&?)]].
  destruct (ents !! name) as [[[] d|]|] eqn:E.
  - split; [|done]. intros _. eexists _, _, _. split; [done|]. by rewrite E.
  - split; [done|]. intros (?&?&?&[= <- <-]&H). by rewrite E in H.
  - split; [done|]. intros (?&?&?&[= <- <-]&H). by rewrite E in H.
  - destruct dw.
    + split; [|done]. intros _. eexists _, _, _. split; [done|]. by rewrite E.
    + split; [done|]. intros (?&?&?&[= <- <-]&H). by rewrite E in H.
Qed.

(** [open(..., "w")]: what it leaves and when it succeeds. *)
Lemma open_w_inv dir name w res w' :
  Os.open_w dir name w = (res, w') →
  same_except [dir ++ [name]] (root w) (root w') ∧ stdout w' = stdout w ∧
  match res with
  | Ok _ => openable (root w) dir name = true
            ∧ file_at (root w') (dir ++ [name]) true EmptyString
            ∧ free w' = (free w + size_at (root w) (dir ++ [name]))%N
  | Raise _ => w' = w ∧ openable (root w) dir name = false
  end.
Proof.
  unfold Os.open_w.
  destruct (in_dir (open_entry name) (root w) dir) as [t|e] eqn:E; intros [= <- <-].
  - split; [by eapply in_dir_frame; [apply open_entry_op|]|]. split; [done|].
    cbn [root free]. rewrite in_dir_eq in E.
    destruct (stat (root w) dir) as [[|dw ents]|] eqn:Es; try done.
    destruct (open_entry name dw ents) as [ents'|] eqn:Eo; [|done].
    injection E as <-. split_and!; [| |done].
    + apply openable_spec. eauto.
    + unfold file_at. rewrite stat_app, (stat_put _ _ _ _ Es). cbn [stat].
      unfold open_entry in Eo.
      destruct (ents !! name) as [[[] d|]|]; try done.
      * injection Eo as <-. by rewrite lookup_insert_eq.
      * destruct dw; [|done]. injection Eo as <-. by rewrite lookup_insert_eq.
  - split; [apply same_except_refl|]. split; [done|]. split; [done|].
    destruct (openable (root w) dir name) eqn:Eo; [|done].
    apply openable_spec in Eo as (dw & ents & ents' & Es & Ek).
    rewrite in_dir_eq, Es, Ek in E. done.
Qed.

(** [write] on the file just opened. *)
Lemma write_inv dir name s w res w' fw d :
  file_at (root w) (dir ++ [name]) fw d →
  Os.write dir name s w = (res, w') →
  same_except [dir ++ [name]] (root w) (root w') ∧ stdout w' = stdout w ∧
  match res with
  | Ok _ => (size s <= free w)%N
            ∧ file_at (root w') (dir ++ [name]) fw (d +:+ s)
            ∧ free w' = (free w - size s)%N
  | Raise e => e = NoSpaceError ∧ (free w < size s)%N
  end.
Proof.
  intros F. apply stat_snoc_inv in F as (dw & ents & Es & El).
  assert (∀ s', in_dir (append_entry name s') (root w) dir
                = Ok (put (root w) dir (Dir dw (<[name := File fw (d +:+ s')]> ents)))) as Hin.
  { intros s'. rewrite in_dir_eq, Es. unfold append_entry. by rewrite El. }
  unfold Os.write. destruct (size s <=? free w)%N eqn:El'.
  - pose proof (Hin s) as E. rewrite E. intros [= <- <-].
    split; [by eapply in_dir_frame; [apply append_entry_op|]|]. split; [done|].
    cbn [root free]. split_and!; [by apply N.leb_le| |done].
    unfold file_at. rewrite stat_app, (stat_put _ _ _ _ Es). cbn [stat].
    by rewrite lookup_insert_eq.
  - match goal with |- context [append_entry name ?s'] => pose proof (Hin s') as E end.
    rewrite E. intros [= <- <-].
    split; [by eapply in_dir_frame; [apply append_entry_op|]|]. split; [done|].
    split; [done|]. by apply N.leb_gt.
Qed.

(** The block [with open(p, "w") as f: json.dump(obj, f, indent=2)]. *)
Lemma dump_inv (pa : PosixPath) name obj w res w' :
  with_open_w (Child pa name) (λ f, json_dump obj f 2) w = (res, w') →
  let f := parts pa ++ [name] in
  let s := dumps obj 2 in
  same_except [f] (root w) (root w') ∧ stdout w' = stdout w ∧
  match res with
  | Ok _ => openable (root w) (parts pa) name = true
            ∧ (size s <= free w + size_at (root w) f)%N
            ∧ file_at (root w') f true s
            ∧ free w' = (free w + size_at (root w) f - size s)%N
  | Raise e => (w' = w ∧ openable (root w) (parts pa) name = false)
               ∨ (e = NoSpaceError ∧ openable (root w) (parts pa) name = true
                  ∧ (free w + size_at (root w) f < size s)%N)
  end.
Proof.
  unfold with_open_w, open_w, json_dump, bind, ret. cbn [f_dir f_name].
  destruct (Os.open_w (parts pa) name w) as [[[]|e] w1] eqn:E1.
  - apply open_w_inv in E1 as (Hf1 & Ho1 & Hop & F1 & Hfree1).
    intros E2. eapply write_inv in E2 as (Hf2 & Ho2 & Hres); [|done].
    cbn zeta. split; [by eapply same_except_trans|]. split; [congruence|].
    destruct res as [[]|e].
    + destruct Hres as (Hle & F2 & Hfree2). rewrite <- Hfree1.
      by split_and!.
    + destruct Hres as (-> & Hlt). right. rewrite <- Hfree1. by split_and!.
  - apply open_w_inv in E1 as (Hf1 & Ho1 & -> & Hop).
    intros [= <- <-]. cbn zeta. split; [apply same_except_refl|]. split; [done|].
    by left.
Qed.

(** The operations on files leave standard output and its encoding
    alone. *)
Lemma dump_unicode (pa : PosixPath) name obj w res w' :
  with_open_w (Child pa name) (λ f, json_dump obj f 2) w = (res, w') →
  stdout_unicode w' = stdout_unicode w.
Proof.
  unfold with_open_w, open_w, json_dump, bind, ret, Os.open_w, Os.write.
  cbn [f_dir f_name].
  destruct (in_dir (open_entry name) (root w) (parts pa)) as [r|e];
    [|by intros [= <- <-]].
  cbn [root free stdout stdout_unicode].
  repeat case_match; by intros [= <- <-].
Qed.

(** [print] of a text that is not ASCII: it is printed when standard
    output represents it, and raises otherwise. *)
Lemma print_inv s w :
  is_ascii s = false →
  print s w = if stdout_unicode w
              then (Ok (), World (root w) (free w) (stdout w ++ [s])
                             (stdout_unicode w))
              else (Raise UnicodeEncodeError, w).
Proof. intros H. unfold print. by rewrite H. Qed.

End Steps.

Section Script.
Import Json Os Pathlib GenerateAssets Observe.

Implicit Types (n m x t : node) (p q : list string) (c name s : string).
Implicit Types (ents : gmap string node) (w : world).

Lemma dm_path_eq :
  truediv assets_dir "dishonesty_matrix.json"
  = Child assets_dir "dishonesty_matrix.json".
Proof. reflexivity. Qed.

Lemma ep_path_eq :
  truediv assets_dir "extraction_protocol.json"
  = Child assets_dir "extraction_protocol.json".
Proof. reflexivity. Qed.

Lemma dm_file_eq : dm_file = rules ++ ["dishonesty_matrix.json"].
Proof. reflexivity. Qed.

Lemma ep_file_eq : ep_file = rules ++ ["extraction_protocol.json"].
Proof. reflexivity. Qed.

Lemma files_differ : dm_file ≠ ep_file.
Proof. by vm_compute. Qed.

Lemma rules_not_dm : rules ≠ dm_file.
Proof. by vm_compute. Qed.

Lemma rules_not_ep : rules ≠ ep_file.
Proof. by vm_compute. Qed.

Lemma same_except_attr_ok fs n n' q :
  same_except fs n n' → q ∉ fs → attr_ok n' q = attr_ok n q.
Proof.
  intros H Hq. unfold attr_ok.
  destruct (attr n' q) as [a'|] eqn:E'.
  - apply (H q a' Hq) in E'. by rewrite E'.
  - destruct (attr n q) as [a|] eqn:E; [|done].
    apply (H q a Hq) in E. congruence.
Qed.

Lemma openable_attr_ok n dir name :
  openable n dir name =
  match attr_ok n dir with
  | Some (dw, None) =>
      match attr_ok n (dir ++ [name]) with
      | Some (fw, Some _) => fw
      | Some (_, None) => false
      | None => dw
      end
  | _ => false
  end.
Proof.
  unfold openable, attr_ok, attr. rewrite stat_app.
  destruct (stat n dir) as [[|dw ents]|]; try done. cbn [stat].
  by destruct (ents !! name) as [[|]|].
Qed.

Lemma size_at_attr_ok n p :
  size_at n p = match attr_ok n p with
                | Some (_, Some d) => size d
                | _ => 0%N
                end.
Proof. unfold size_at, attr_ok, attr. by destruct (stat n p) as [[|]|]. Qed.

Lemma same_except_openable fs n n' dir name :
  same_except fs n n' → dir ∉ fs → dir ++ [name] ∉ fs →
  openable n' dir name = openable n dir name.
Proof.
  intros H H1 H2. rewrite !openable_attr_ok.
  by rewrite !(same_except_attr_ok fs n n').
Qed.

Lemma same_except_size_at fs n n' p :
  same_except fs n n' → p ∉ fs → size_at n' p = size_at n p.
Proof.
  intros H H1. rewrite !size_at_attr_ok. by rewrite (same_except_attr_ok fs n n').
Qed.

(** Everything a run does, by outcome. *)
Lemma run_inv w res w' :
  create_rule_assets w = (res, w') →
  same_files_except [dm_file; ep_file] (root w) (root w') ∧
  (∀ t, mkdir_p (root w) rules = Some t →
        same_except [dm_file; ep_file] t (root w')) ∧
  match res with
  | Ok _ =>
      run_ready w
      ∧ file_at (root w') dm_file true dm_text
      ∧ file_at (root w') ep_file true ep_text
      ∧ stdout w' = stdout w ++ printed
  | Raise _ => ¬ run_ready w
  end.
Proof.
  unfold create_rule_assets. rewrite dm_path_eq, ep_path_eq.
  unfold bind at 1.
  pose proof (mkdir_refines assets_dir w) as Hm.
  destruct (mkdir_p (root w) (parts assets_dir)) as [t|] eqn:Ep; cbn [mkdir_outcome] in Hm.
  2:{ destruct Hm as [e ->]. intros [= <- <-]. split; [by intros q fw d _|].
      split; [unfold rules; congruence|].
      intros (t & _ & Ht & _). unfold rules in Ht. congruence. }
  rewrite Hm. clear Hm.
  pose proof (mkdir_p_frame _ _ _ Ep) as Hf0.
  apply (same_files_except_weaken _ [dm_file; ep_file]) in Hf0;
    [|intros ?; set_unfold; tauto].
  assert (∀ n', same_except [dm_file; ep_file] t n' →
            same_files_except [dm_file; ep_file] (root w) n'
            ∧ (∀ t', mkdir_p (root w) rules = Some t' →
                     same_except [dm_file; ep_file] t' n')) as Hframe.
  { intros n' Hn'. split.
    - eapply same_files_except_trans; [exact Hf0|]. by apply same_except_files.
    - intros t' Ht'. unfold rules in Ht'. by assert (t' = t) as -> by congruence. }
  unfold bind at 1.
  destruct (with_open_w (Child assets_dir "dishonesty_matrix.json") _ _)
    as [[[]|e1] w2] eqn:E1; pose proof (dump_unicode _ _ _ _ _ _ E1) as Hu1;
    apply dump_inv in E1; cbn zeta in E1;
    fold rules dm_text in E1; rewrite <- dm_file_eq in E1;
    destruct E1 as (Hf1 & Ho1 & H1); cbn [root free stdout stdout_unicode] in *.
  all: pose proof Hf1 as Hf1'.
  all: apply (same_except_weaken _ [dm_file; ep_file]) in Hf1;
    [|intros ?; set_unfold; tauto].
  2:{ intros [= <- <-]. destruct (Hframe _ Hf1) as [Ha Hb]; split; [exact Ha|split; [exact Hb|]].
      intros (t' & _ & Ht & Hop1 & _ & Hs1 & _). unfold rules in Ht.
      assert (t' = t) as -> by congruence.
      destruct H1 as [(_ & H1)|(_ & _ & H1)]; [congruence|lia]. }
  destruct H1 as (Hop1 & Hs1 & F1 & Hfree1).
  unfold bind at 1. rewrite print_inv by reflexivity. rewrite Hu1.
  destruct (stdout_unicode w) eqn:Hu.
  2:{ intros [= <- <-]. destruct (Hframe _ Hf1) as [Ha Hb]; split; [exact Ha|split; [exact Hb|]].
      intros (t' & Hu' & _). congruence. }
  unfold bind at 1.
  destruct (with_open_w (Child assets_dir "extraction_protocol.json") _ _)
    as [[[]|e2] w4] eqn:E2; pose proof (dump_unicode _ _ _ _ _ _ E2) as Hu2;
    apply dump_inv in E2; cbn zeta in E2;
    fold rules ep_text in E2; rewrite <- ep_file_eq in E2;
    destruct E2 as (Hf2 & Ho2 & H2); cbn [root free stdout stdout_unicode] in *.
  all: assert (dm_file ∉ [ep_file]) as Hne
    by (rewrite list_elem_of_singleton; apply files_differ).
  all: assert (openable (root w2) rules "extraction_protocol.json"
               = openable t rules "extraction_protocol.json") as Hop
    by (apply (same_except_openable [dm_file]); [done| |];
        rewrite list_elem_of_singleton; [apply rules_not_dm|];
        rewrite <- ep_file_eq; intros ?; by apply files_differ).
  all: assert (size_at (root w2) ep_file = size_at t ep_file) as Hsz
    by (apply (same_except_size_at [dm_file]); [done|];
        rewrite list_elem_of_singleton; intros ?; by apply files_differ).
  all: pose proof (same_except_attr_ok _ _ _ _ Hf2 Hne) as Hdm.
  all: apply (same_except_weaken _ [dm_file; ep_file]) in Hf2;
    [|intros ?; set_unfold; tauto].
  all: pose proof (same_except_trans _ _ _ _ Hf1 Hf2) as Hf.
  2:{ intros [= <- <-]. destruct (Hframe _ Hf) as [Ha Hb]; split; [exact Ha|split; [exact Hb|]].
      intros (t' & _ & Ht & _ & Hop2 & _ & Hs2). unfold rules in Ht.
      assert (t' = t) as -> by congruence.
      destruct H2 as [(_ & H2)|(_ & _ & H2)]; [congruence|].
      rewrite Hsz, Hfree1 in H2. lia. }
  destruct H2 as (Hop2 & Hs2 & F2 & Hfree2).
  unfold bind. rewrite !print_inv by reflexivity.
  cbn [root free stdout stdout_unicode]. rewrite Hu2.
  intros [= <- <-]. cbn [root stdout]. destruct (Hframe _ Hf) as [Ha Hb].
  split; [exact Ha|split; [exact Hb|]]. split_and!.
  - exists t. rewrite Hsz, Hfree1 in Hs2.
    split_and!; [done | exact Ep | done | congruence | done | done].
  - apply file_at_attr. apply file_at_attr in F1.
    unfold attr_ok in Hdm. rewrite F1 in Hdm. by destruct (attr (root w4) dm_file) as [|]; simplify_eq.
  - done.
  - rewrite Ho2, Ho1, <- !app_assoc. f_equal.
Qed.

End Script.

(* ===================================================================== *)
(** ** Running the script: auxiliary facts *)
(* ===================================================================== *)

Section Helpers.
Import Json Os Pathlib GenerateAssets Observe.

Implicit Types (n m x t : node) (p q : list string) (c name s : string).
Implicit Types (ents : gmap string node) (w : world).

Lemma read_text_file_at w (pa : PosixPath) fw d :
  file_at (root w) (parts pa) fw d → read_text w pa = Some d.
Proof. unfold file_at, read_text. by intros ->. Qed.

Lemma file_openable n dir name d :
  file_at n (dir ++ [name]) true d → openable n dir name = true.
Proof.
  intros (dw & ents & Hs & Hl)%stat_snoc_inv. unfold openable.
  by rewrite Hs, Hl.
Qed.

Lemma size_at_file n p fw d : file_at n p fw d → size_at n p = size d.
Proof. unfold file_at, size_at. by intros ->. Qed.


Lemma seq_steps w : create_rule_assets w = seq steps w.
Proof.
  unfold create_rule_assets, steps, seq, dm_path, ep_path, bind, ret.
  repeat match goal with
         | |- context [match ?m w with _ => _ end] => destruct (m w) as [[[]|?] ?]
         | |- context [match ?m ?w0 with _ => _ end] => destruct (m w0) as [[[]|?] ?]
         end; reflexivity.
Qed.

(** The first statement that raises ends the sequence, in the state it
    left. *)
Lemma seq_fails pre (m : IO unit) post w w_mid e wk :
  seq pre w = (Ok (), w_mid) →
  m w_mid = (Raise e, wk) →
  seq (pre ++ m :: post) w = (Raise e, wk).
Proof.
  revert w. induction pre as [|m0 pre IH]; intros w; cbn [seq app]; unfold bind, ret.
  - intros [= ->] ->. done.
  - destruct (m0 w) as [[[]|e0] w0]; [|done]. apply IH.
Qed.

Lemma texts_parse :
  loads dm_text = Some dishonesty_matrix
  ∧ loads ep_text = Some extraction_protocol.
Proof. split; vm_compute; reflexivity. Qed.

End Helpers.

(* ===================================================================== *)
(** ** Running the script twice *)
(* ===================================================================== *)

Section Again.
Import Json Os Pathlib GenerateAssets Observe.

Implicit Types (n m x t : node) (p q : list string) (c name s : string).
Implicit Types (ents : gmap string node) (w : world).

Lemma length_substring_0 k s :
  (k ≤ String.length s)%nat → String.length (String.substring 0 k s) = k.
Proof.
  revert k. induction s as [|a s IH]; intros [|k] Hk; cbn in *; try done; try lia.
  f_equal. apply IH. lia.
Qed.

Lemma substring_0_length s : String.substring 0 (String.length s) s = s.
Proof. induction s as [|a s IH]; cbn; [done|]. by rewrite IH. Qed.

(** The block [with open(p, "w") as f: json.dump(obj, f, indent=2)] as
    an equation, when the file can be opened: [avail] is the room on the
    disk once the old data of the file is given back. *)
Lemma dump_exact (pa : PosixPath) name obj w dw ents :
  stat (root w) (parts pa) = Ok (Dir dw ents) →
  openable (root w) (parts pa) name = true →
  let s := dumps obj 2 in
  let avail := (free w + size_at (root w) (parts pa ++ [name]))%N in
  with_open_w (Child pa name) (λ f, json_dump obj f 2) w =
  if (size s <=? avail)%N then
    (Ok (), World (put (root w) (parts pa) (Dir dw (<[name := File true s]> ents)))
              (avail - size s) (stdout w) (stdout_unicode w))
  else
    (Raise NoSpaceError,
     World (put (root w) (parts pa)
              (Dir dw (<[name := File true (String.substring 0 (N.to_nat avail) s)]> ents)))
           0 (stdout w) (stdout_unicode w)).
Proof.
  intros Hs Hop s avail.
  assert (open_entry name dw ents = Ok (<[name := File true EmptyString]> ents)) as Hoe.
  { unfold openable in Hop. rewrite Hs in Hop. unfold open_entry.
    destruct (ents !! name) as [[[] d|]|]; try done. by destruct dw. }
  unfold with_open_w, open_w, json_dump, bind, ret, Os.open_w. cbn [f_dir f_name].
  rewrite in_dir_eq, Hs, Hoe. unfold Os.write. cbn [root free stdout stdout_unicode].
  fold s avail.
  rewrite !in_dir_eq, (stat_put _ _ _ _ Hs). unfold append_entry.
  rewrite lookup_insert_eq, !insert_insert_eq, !put_put.
  by destruct (size s <=? avail)%N.
Qed.

(** When the file cannot be opened the block raises and changes
    nothing, whatever was printed before. *)
Lemma dump_unopenable (pa : PosixPath) name obj w :
  openable (root w) (parts pa) name = false →
  ∃ e, ∀ out,
    with_open_w (Child pa name) (λ f, json_dump obj f 2)
      (World (root w) (free w) out (stdout_unicode w))
    = (Raise e, World (root w) (free w) out (stdout_unicode w)).
Proof.
  intros Hop.
  destruct (in_dir (open_entry name) (root w) (parts pa)) as [t|e] eqn:E.
  - rewrite in_dir_eq in E.
    destruct (stat (root w) (parts pa)) as [[|dw ents]|] eqn:Es; try done.
    destruct (open_entry name dw ents) as [ents'|] eqn:Eo; [|done].
    assert (openable (root w) (parts pa) name = true) by (apply openable_spec; eauto).
    congruence.
  - exists e. intros out.
    unfold with_open_w, open_w, bind, Os.open_w. cbn [root]. by rewrite E.
Qed.

(** A file that already holds the text is written again with the same
    result, whatever the free space. *)
Lemma dump_fixed (pa : PosixPath) name obj w :
  file_at (root w) (parts pa ++ [name]) true (dumps obj 2) →
  with_open_w (Child pa name) (λ f, json_dump obj f 2) w = (Ok (), w).
Proof.
  intros F. pose proof (file_openable _ _ _ _ F) as Hop.
  pose proof (size_at_file _ _ _ _ F) as Hsz.
  apply stat_snoc_inv in F as (dw & ents & Hs & Hl).
  rewrite (dump_exact pa name obj w dw ents Hs Hop). cbn zeta. rewrite Hsz.
  assert ((size (dumps obj 2) <=? free w + size (dumps obj 2))%N = true) as ->
    by (apply N.leb_le; lia).
  rewrite (insert_id _ _ _ Hl), (put_same _ _ _ Hs).
  replace (free w + size (dumps obj 2) - size (dumps obj 2))%N with (free w) by lia.
  by rewrite world_eta.
Qed.

(** A file left cut short by a full disk is cut short again at the same
    place. *)
Lemma dump_partial_fixed (pa : PosixPath) name obj w k :
  (k < size (dumps obj 2))%N →
  file_at (root w) (parts pa ++ [name]) true
    (String.substring 0 (N.to_nat k) (dumps obj 2)) →
  free w = 0%N →
  with_open_w (Child pa name) (λ f, json_dump obj f 2) w
  = (Raise NoSpaceError, w).
Proof.
  intros Hk F Hfree. pose proof (file_openable _ _ _ _ F) as Hop.
  pose proof (size_at_file _ _ _ _ F) as Hsz.
  assert (size (String.substring 0 (N.to_nat k) (dumps obj 2)) = k) as Hlen.
  { unfold size in *. rewrite length_substring_0; lia. }
  rewrite Hlen in Hsz.
  apply stat_snoc_inv in F as (dw & ents & Hs & Hl).
  rewrite (dump_exact pa name obj w dw ents Hs Hop). cbn zeta. rewrite Hsz, Hfree.
  rewrite N.add_0_l.
  assert ((size (dumps obj 2) <=? k)%N = false) as -> by (apply N.leb_gt; lia).
  rewrite (insert_id _ _ _ Hl), (put_same _ _ _ Hs).
  by rewrite <- Hfree, world_eta.
Qed.


Lemma mkdir_existing w :
  is_directory (root w) rules →
  Pathlib.mkdir assets_dir true true w = (Ok (), w).
Proof.
  intros Hd. pose proof (mkdir_refines assets_dir w) as Hm.
  fold rules in Hm. rewrite (mkdir_p_existing _ _ Hd) in Hm.
  cbn [mkdir_outcome] in Hm. by rewrite world_eta in Hm.
Qed.

Lemma run_split w :
  create_rule_assets w = (Pathlib.mkdir assets_dir true true >>> after_mkdir) w.
Proof. reflexivity. Qed.


Lemma file_at_put_entry n dir dw ents name x :
  stat n dir = Ok (Dir dw ents) →
  stat (put n dir (Dir dw (<[name := x]> ents))) (dir ++ [name]) = Ok x.
Proof.
  intros Hs. rewrite stat_app, (stat_put _ _ _ _ Hs). cbn [stat].
  by rewrite lookup_insert_eq.
Qed.

Lemma file_at_put_other n dir dw ents name name' x :
  name ≠ name' →
  stat n dir = Ok (Dir dw ents) →
  stat (put n dir (Dir dw (<[name := x]> ents))) (dir ++ [name'])
  = stat n (dir ++ [name']).
Proof.
  intros Hne Hs. rewrite !stat_app, (stat_put _ _ _ _ Hs), Hs. cbn [stat].
  by rewrite lookup_insert_ne.
Qed.

(** Running the statements after [mkdir] twice: the second time has the
    outcome of the first and leaves the tree and the free space as the
    first left them. *)
Lemma after_mkdir_again w res w1 :
  after_mkdir w = (res, w1) →
  ∃ w2, after_mkdir w1 = (res, w2) ∧ root w2 = root w1 ∧ free w2 = free w1.
Proof.
  unfold after_mkdir. rewrite dm_path_eq, ep_path_eq. fold rules.
  destruct (openable (root w) rules "dishonesty_matrix.json") eqn:Hop1.
  2:{ (* the first file cannot be opened *)
      destruct (dump_unopenable assets_dir "dishonesty_matrix.json" dishonesty_matrix w Hop1) as [e He].
      pose proof (He (stdout w)) as He1. rewrite world_eta in He1.
      unfold bind at 1. rewrite He1. intros [<- <-]%pair_equal_spec. exists w.
      unfold bind at 1. by rewrite He1. }
  pose proof Hop1 as (dw & ents & ents1 & Hs & _)%openable_spec.
  unfold bind at 1.
  rewrite (dump_exact assets_dir "dishonesty_matrix.json" dishonesty_matrix w dw ents Hs Hop1).
  cbn zeta. fold rules dm_text. rewrite <- dm_file_eq.
  set (avail := (free w + size_at (root w) dm_file)%N).
  destruct (size dm_text <=? avail)%N eqn:Hle1.
  2:{ (* the disk fills up on the first file *)
      intros [<- <-]%pair_equal_spec. eexists. split; [|split; reflexivity].
      unfold bind at 1. rewrite (dump_partial_fixed _ _ _ _ avail); [done| | |done].
      - apply N.leb_gt in Hle1. exact Hle1.
      - exact (file_at_put_entry _ _ _ _ _ _ Hs). }
  set (r1 := put (root w) rules (Dir dw (<["dishonesty_matrix.json" := File true dm_text]> ents))).
  assert (stat r1 dm_file = Ok (File true dm_text)) as F1.
  { rewrite dm_file_eq. by apply file_at_put_entry. }
  assert (stat r1 rules = Ok (Dir dw (<["dishonesty_matrix.json" := File true dm_text]> ents))) as Hs1.
  { by apply (stat_put _ _ _ _ Hs). }
  assert (∀ fr out u, with_open_w (Child assets_dir "dishonesty_matrix.json")
                        (λ f, json_dump dishonesty_matrix f 2) (World r1 fr out u)
                      = (Ok (), World r1 fr out u)) as Hfix1.
  { intros fr out u. apply dump_fixed. exact F1. }
  unfold bind at 1. rewrite print_inv by reflexivity.
  cbn [root free stdout stdout_unicode].
  destruct (stdout_unicode w) eqn:Hu.
  2:{ (* standard output does not take the check mark *)
      intros [<- <-]%pair_equal_spec. eexists. split; [|split; reflexivity].
      unfold bind at 1. rewrite Hfix1.
      unfold bind at 1. by rewrite print_inv by reflexivity. }
  set (fr1 := (avail - size dm_text)%N).
  set (out1 := stdout w ++ _).
  destruct (openable r1 rules "extraction_protocol.json") eqn:Hop2.
  2:{ (* the second file cannot be opened *)
      destruct (dump_unopenable assets_dir "extraction_protocol.json" extraction_protocol
                  (World r1 fr1 out1 true) Hop2) as [e He].
      cbn [root free stdout_unicode] in He.
      unfold bind at 1. rewrite He. intros [<- <-]%pair_equal_spec. eexists.
      unfold bind at 1. rewrite Hfix1.
      unfold bind at 1. rewrite print_inv by reflexivity.
      cbn [root free stdout stdout_unicode].
      unfold bind at 1. rewrite He. done. }
  unfold bind at 1.
  rewrite (dump_exact assets_dir "extraction_protocol.json" extraction_protocol
             (World r1 fr1 out1 true) _ _ Hs1 Hop2).
  cbn zeta. cbn [root free stdout stdout_unicode]. fold rules ep_text.
  rewrite <- ep_file_eq.
  set (avail2 := (fr1 + size_at r1 ep_file)%N).
  destruct (size ep_text <=? avail2)%N eqn:Hle2.
  2:{ (* the disk fills up on the second file *)
      intros [<- <-]%pair_equal_spec. cbn [root free].
      match goal with |- context [put r1 rules ?d] => set (r2 := put r1 rules d) end.
      assert (stat r2 dm_file = Ok (File true dm_text)) as F1'.
      { unfold r2. rewrite dm_file_eq, file_at_put_other; [|done|done].
        by rewrite <- dm_file_eq. }
      eexists.
      unfold bind at 1. rewrite dump_fixed; [|exact F1'].
      unfold bind at 1. rewrite print_inv by reflexivity.
      cbn [root free stdout stdout_unicode].
      unfold bind at 1. rewrite (dump_partial_fixed _ _ _ _ avail2); [done| | |done].
      - apply N.leb_gt in Hle2. exact Hle2.
      - exact (file_at_put_entry _ _ _ _ _ _ Hs1). }
  match goal with |- context [put r1 rules ?d] => set (r2 := put r1 rules d) end.
  assert (stat r2 dm_file = Ok (File true dm_text)) as F1'.
  { unfold r2. rewrite dm_file_eq, file_at_put_other; [|done|done].
    by rewrite <- dm_file_eq. }
  assert (stat r2 ep_file = Ok (File true ep_text)) as F2.
  { unfold r2. rewrite ep_file_eq. by apply file_at_put_entry. }
  unfold bind at 1. rewrite print_inv by reflexivity.
  cbn [root free stdout stdout_unicode].
  unfold bind at 1. rewrite print_inv by reflexivity.
  cbn [root free stdout stdout_unicode]. intros [<- <-]%pair_equal_spec. eexists.
  unfold bind at 1. rewrite dump_fixed; [|exact F1'].
  unfold bind at 1. rewrite print_inv by reflexivity.
  cbn [root free stdout stdout_unicode].
  unfold bind at 1. rewrite dump_fixed; [|exact F2].
  unfold bind. rewrite !print_inv by reflexivity.
  cbn [root free stdout stdout_unicode]. done.
Qed.

(** A second run has the outcome of the first and leaves the tree and
    the free space as the first left them. *)
Lemma run_again w :
  ∃ w2, create_rule_assets (snd (create_rule_assets w))
        = (fst (create_rule_assets w), w2)
        ∧ root w2 = root (snd (create_rule_assets w))
        ∧ free w2 = free (snd (create_rule_assets w)).
Proof.
  destruct (create_rule_assets w) as [res w1] eqn:E. cbn [fst snd].
  pose proof E as (_ & Hsame & _)%run_inv.
  rewrite run_split in E. unfold bind in E.
  pose proof (mkdir_refines assets_dir w) as Hm. fold rules in Hm.
  destruct (mkdir_p (root w) rules) as [t|] eqn:Ep; cbn [mkdir_outcome] in Hm.
  - rewrite Hm in E.
    assert (is_directory (root w1) rules) as Hd.
    { apply is_directory_attr.
      destruct (mkdir_p_is_directory _ _ _ Ep) as (dw & ents & Hs).
      exists dw. apply (Hsame t eq_refl).
      - set_unfold. intros [?|[?|[]]]; [by apply rules_not_dm|by apply rules_not_ep].
      - unfold attr. by rewrite Hs. }
    rewrite run_split. unfold bind. rewrite (mkdir_existing _ Hd).
    by apply after_mkdir_again in E.
  - destruct Hm as [e Hm]. rewrite Hm in E. injection E as <- <-.
    exists w. rewrite run_split. unfold bind. by rewrite Hm.
Qed.

End Again.

(* ===================================================================== *)
(** ** The script on some worlds *)
(* ===================================================================== *)

Section Examples.
Import Json Os Pathlib GenerateAssets Observe.

Example run_fresh :
  fst (main fresh_world) = 0%Z
  ∧ stdout (snd (main fresh_world)) = printed
  ∧ free (snd (main fresh_world)) = 3873%N.
Proof. vm_compute. done. Qed.

Example texts_sizes : size dm_text = 619%N ∧ size ep_text = 508%N.
Proof. vm_compute. done. Qed.

(** A component of the path is a regular file: the run ends at once. *)
Example run_blocked : main blocked_world = (1%Z, blocked_world).
Proof. vm_compute. done. Qed.

(** The destination is a regular file: [os.mkdir] raises
    [FileExistsError] and [is_dir] is false, so it is raised again. *)
Example run_collision :
  Pathlib.mkdir assets_dir true true collision_world
  = (Raise FileExistsError, collision_world)
  ∧ main collision_world = (1%Z, collision_world).
Proof. vm_compute. done. Qed.

(** The disk fills up during the second file: the first file is whole,
    the second is cut short, and nothing is printed for it. *)
Example run_disk_full :
  let w' := snd (main (World (Dir true ∅) 700 [] true)) in
  fst (main (World (Dir true ∅) 700 [] true)) = 1%Z
  ∧ read_text w' dm_path = Some dm_text
  ∧ read_text w' ep_path = Some (String.substring 0 81 ep_text)
  ∧ List.length (stdout w') = 1%nat
  ∧ free w' = 0%N.
Proof. vm_compute. done. Qed.

(** Standard output in ASCII: the first file is written, its line
    cannot be printed, and the run ends there with status 1, the second
    file never written. *)
Example run_ascii_stdout :
  let w' := snd (main ascii_world) in
  fst (create_rule_assets ascii_world) = Raise UnicodeEncodeError
  ∧ fst (main ascii_world) = 1%Z
  ∧ read_text w' dm_path = Some dm_text
  ∧ read_text w' ep_path = None
  ∧ stdout w' = [].
Proof. vm_compute. done. Qed.

(** An unrelated read-only note and an older matrix: the note stays, the
    matrix is replaced, and its old bytes are given back to the disk. *)
Example run_used :
  let w' := snd (main used_world) in
  fst (main used_world) = 0%Z
  ∧ read_text w' (truediv assets_dir "NOTES.txt") = Some "keep me"
  ∧ read_text w' dm_path = Some dm_text
  ∧ free w' = 3875%N.
Proof. vm_compute. done. Qed.

(** The encoder on a value with every kind of escape. *)
Example dumps_escapes :
  dumps (JDict [("a", JInt (-12));
                ("b", JList [JStr (String "010" (String quote (String backslash
                                     (String "127" (String "200" "z/")))));
                             JList []; JDict []; JNull; JBool true])]) 2
  = String.concat (String LF EmptyString)
      ["{";
       "  " +:+ String quote ("a" +:+ String quote ": -12,");
       "  " +:+ String quote ("b" +:+ String quote ": [");
       "    " +:+ String quote (String backslash "n" +:+ String backslash
          (String quote (String backslash (String backslash
             (String backslash "u007f" +:+ String backslash "u00c8z/"
              +:+ String quote ",")))));
       "    [],";
       "    {},";
       "    null,";
       "    true";
       "  ]";
       "}"].
Proof. vm_compute. done. Qed.

End Examples.

(* ===================================================================== *)
(** ** The claims *)
(* ===================================================================== *)

Section Claims.
Import Json Os Pathlib GenerateAssets Observe.

Implicit Types (n m x t : node) (p q : list string) (c name s : string).
Implicit Types (ents : gmap string node) (w : world).

(** C1: for every run of [create_rule_assets] that completes, each of
    the two written files, read back as JSON, has exactly the shape of
    section 3 of the specification.  The matrix has the keys version,
    contradictions, omissions and manipulations, each category being a
    record of an integer weight, the strings of examples and the strings
    of patterns in the order of construction; the protocol has the keys
    version, step1_keywords, step2_tags and step3_scoring, the latter
    mapping low, medium and high to a record of weight and color.  The
    records read back are those the dictionaries of the script decode
    to. *)
Theorem C1_files_match_schema w w' :
  create_rule_assets w = (Ok (), w') →
  parsed as_dishonesty_matrix (read_text w' dm_path) = Some expected_dm
  ∧ parsed as_extraction_protocol (read_text w' ep_path) = Some expected_ep
  ∧ as_dishonesty_matrix dishonesty_matrix = Some expected_dm
  ∧ as_extraction_protocol extraction_protocol = Some expected_ep.
Proof.
  intros (_ & _ & _ & F1 & F2 & _)%run_inv.
  rewrite (read_text_file_at _ dm_path _ _ F1).
  rewrite (read_text_file_at _ ep_path _ _ F2).
  split_and!; vm_compute; reflexivity.
Qed.

Lemma C1_witness :
  parsed as_dishonesty_matrix
    (read_text (snd (create_rule_assets fresh_world)) dm_path)
  = Some expected_dm
  ∧ parsed as_extraction_protocol
      (read_text (snd (create_rule_assets fresh_world)) ep_path)
    = Some expected_ep
  ∧ as_dishonesty_matrix dishonesty_matrix = Some expected_dm
  ∧ as_extraction_protocol extraction_protocol = Some expected_ep.
Proof.
  apply (C1_files_match_schema fresh_world). vm_compute. reflexivity.
Defined.

(** C2: after a run that completes, as the run on a clean checkout
    does when nothing in its environment stops it, the written
    dishonesty_matrix.json has the top-level version 1.0 and the weight 3
    under contradictions, and the written extraction_protocol.json has
    the color #F44336 under step3_scoring, high. *)
Theorem C2_concrete_values w w' :
  create_rule_assets w = (Ok (), w') →
  ∃ dm ep,
    read_json w' dm_path = Some dm
    ∧ get "version" dm = Some (JStr "1.0")
    ∧ get_path ["contradictions"; "weight"] dm = Some (JInt 3)
    ∧ read_json w' ep_path = Some ep
    ∧ get_path ["step3_scoring"; "high"; "color"] ep
      = Some (JStr "#F44336").
Proof.
  intros E. exists dishonesty_matrix, extraction_protocol.
  apply run_inv in E as (_ & _ & _ & F1 & F2 & _).
  unfold read_json.
  rewrite (read_text_file_at _ dm_path _ _ F1).
  rewrite (read_text_file_at _ ep_path _ _ F2).
  split_and!; vm_compute; reflexivity.
Qed.

Lemma C2_witness :
  create_rule_assets fresh_world
  = (Ok (), snd (create_rule_assets fresh_world))
  ∧ ∃ dm ep,
      read_json (snd (create_rule_assets fresh_world)) dm_path = Some dm
      ∧ get "version" dm = Some (JStr "1.0")
      ∧ get_path ["contradictions"; "weight"] dm = Some (JInt 3)
      ∧ read_json (snd (create_rule_assets fresh_world)) ep_path = Some ep
      ∧ get_path ["step3_scoring"; "high"; "color"] ep
        = Some (JStr "#F44336").
Proof.
  split; [vm_compute; reflexivity|].
  apply (C2_concrete_values fresh_world). vm_compute. reflexivity.
Defined.

(** C3: for any two successive runs in the same root, the second run
    has the outcome of the first and leaves the whole tree, and so the
    bytes of dishonesty_matrix.json and of extraction_protocol.json, as
    the first left them; and every run that completes, in any world,
    leaves in the two files the same two constant texts, which hold no
    time stamp, random identifier or value taken from the environment. *)
Theorem C3_deterministic_output w :
  let w1 := snd (create_rule_assets w) in
  let w2 := snd (create_rule_assets w1) in
  fst (create_rule_assets w1) = fst (create_rule_assets w)
  ∧ root w2 = root w1
  ∧ read_text w2 dm_path = read_text w1 dm_path
  ∧ read_text w2 ep_path = read_text w1 ep_path
  ∧ (fst (create_rule_assets w) = Ok () →
     read_text w1 dm_path = Some dm_text ∧ read_text w1 ep_path = Some ep_text).
Proof.
  cbn zeta. destruct (run_again w) as (w2 & E2 & Hroot & _).
  rewrite E2. cbn [fst snd]. unfold read_text. rewrite Hroot.
  split_and!; try done.
  destruct (create_rule_assets w) as [res w1] eqn:E. cbn [fst snd].
  intros ->. apply run_inv in E as (_ & _ & _ & F1 & F2 & _).
  fold (read_text w1 dm_path) (read_text w1 ep_path).
  by rewrite (read_text_file_at _ dm_path _ _ F1),
             (read_text_file_at _ ep_path _ _ F2).
Qed.

Lemma C3_witness :
  read_text (snd (create_rule_assets fresh_world)) dm_path = Some dm_text
  ∧ read_text (snd (create_rule_assets fresh_world)) ep_path = Some ep_text.
Proof.
  apply (C3_deterministic_output fresh_world). vm_compute. reflexivity.
Defined.

(** C4: run against an empty root, [create_rule_assets] creates no
    regular file other than
    app/src/main/assets/rules/dishonesty_matrix.json and
    app/src/main/assets/rules/extraction_protocol.json, whatever its
    outcome; and when the run completes, the regular files of the
    resulting tree are exactly these two. *)
Theorem C4_exactly_two_files w dw res w' :
  root w = Dir dw ∅ →
  create_rule_assets w = (res, w') →
  (∀ q, is_file (root w') q →
        q = ["app"; "src"; "main"; "assets"; "rules";
             "dishonesty_matrix.json"]
        ∨ q = ["app"; "src"; "main"; "assets"; "rules";
               "extraction_protocol.json"])
  ∧ (res = Ok () →
     ∀ q, is_file (root w') q ↔
          q = ["app"; "src"; "main"; "assets"; "rules";
               "dishonesty_matrix.json"]
          ∨ q = ["app"; "src"; "main"; "assets"; "rules";
                 "extraction_protocol.json"]).
Proof.
  intros Hroot E.
  change ["app"; "src"; "main"; "assets"; "rules"; "dishonesty_matrix.json"]
    with dm_file.
  change ["app"; "src"; "main"; "assets"; "rules"; "extraction_protocol.json"]
    with ep_file.
  apply run_inv in E as (Hf & _ & Hres). rewrite Hroot in Hf.
  assert (∀ q, is_file (root w') q → q = dm_file ∨ q = ep_file) as Hsub.
  { intros q (fw & d & F).
    destruct (decide (q = dm_file)) as [|H1]; [by left|].
    destruct (decide (q = ep_file)) as [|H2]; [by right|].
    exfalso. apply Hf in F; [|set_unfold; tauto].
    unfold file_at in F. destruct q as [|c q]; [done|]. cbn [stat] in F.
    by rewrite lookup_empty in F. }
  split; [exact Hsub|]. intros ->. destruct Hres as (_ & F1 & F2 & _).
  intros q. split; [apply Hsub|].
  intros [-> | ->]; by eexists _, _.
Qed.

Lemma C4_witness :
  create_rule_assets fresh_world
  = (Ok (), snd (create_rule_assets fresh_world))
  ∧ ∀ q, is_file (root (snd (create_rule_assets fresh_world))) q ↔
         q = ["app"; "src"; "main"; "assets"; "rules";
              "dishonesty_matrix.json"]
         ∨ q = ["app"; "src"; "main"; "assets"; "rules";
                "extraction_protocol.json"].
Proof.
  split; [vm_compute; reflexivity|].
  apply (C4_exactly_two_files fresh_world true (Ok ())).
  - reflexivity.
  - vm_compute. reflexivity.
  - reflexivity.
Defined.

(** C5: after a run that completes, each of the two files holds
    well-formed UTF-8 that is a JSON text laid out one item per line
    with two spaces per nesting level, and reading it back gives the
    dictionary of the script with every key in the order in which the
    dictionary was built. *)
Theorem C5_file_format w w' :
  create_rule_assets w = (Ok (), w') →
  ∃ text1 text2,
    read_text w' dm_path = Some text1 ∧ read_text w' ep_path = Some text2
    ∧ text1 = dumps dishonesty_matrix 2 ∧ text2 = dumps extraction_protocol 2
    ∧ utf8_valid text1 = true ∧ utf8_valid text2 = true
    ∧ indented_by 2 text1 = true ∧ indented_by 2 text2 = true
    ∧ loads text1 = Some dishonesty_matrix
    ∧ loads text2 = Some extraction_protocol
    ∧ (key_order <$> loads text1) = Some (key_order dishonesty_matrix)
    ∧ (key_order <$> loads text2) = Some (key_order extraction_protocol)
    ∧ keys dishonesty_matrix
      = ["version"; "contradictions"; "omissions"; "manipulations"]
    ∧ keys extraction_protocol
      = ["version"; "step1_keywords"; "step2_tags"; "step3_scoring"].
Proof.
  intros (_ & _ & _ & F1 & F2 & _)%run_inv.
  exists dm_text, ep_text.
  rewrite (read_text_file_at _ dm_path _ _ F1).
  rewrite (read_text_file_at _ ep_path _ _ F2).
  split_and!; try done; vm_compute; reflexivity.
Qed.

Lemma C5_witness :
  ∃ text1 text2,
    read_text (snd (create_rule_assets fresh_world)) dm_path = Some text1
    ∧ read_text (snd (create_rule_assets fresh_world)) ep_path = Some text2
    ∧ text1 = dumps dishonesty_matrix 2 ∧ text2 = dumps extraction_protocol 2
    ∧ utf8_valid text1 = true ∧ utf8_valid text2 = true
    ∧ indented_by 2 text1 = true ∧ indented_by 2 text2 = true
    ∧ loads text1 = Some dishonesty_matrix
    ∧ loads text2 = Some extraction_protocol
    ∧ (key_order <$> loads text1) = Some (key_order dishonesty_matrix)
    ∧ (key_order <$> loads text2) = Some (key_order extraction_protocol)
    ∧ keys dishonesty_matrix
      = ["version"; "contradictions"; "omissions"; "manipulations"]
    ∧ keys extraction_protocol
      = ["version"; "step1_keywords"; "step2_tags"; "step3_scoring"].
Proof. apply (C5_file_format fresh_world). vm_compute. reflexivity. Defined.

(** C6, as stated, fails: with [app/src/main/assets] read-only but the
    directory [rules] already inside it and writable, the run exits
    with status 0 and creates both files. *)
Lemma C6_counterexample :
  ¬ (∀ w, attr (root w) assets = Ok (false, None) →
          fst (main w) ≠ 0%Z
          ∧ ∀ q, is_file (root (snd (main w))) q → is_file (root w) q).
Proof.
  intros H. destruct (H readonly_parent_world) as [Hne _].
  - vm_compute. reflexivity.
  - apply Hne. vm_compute. reflexivity.
Qed.

(** C6, amended: whichever statement of the script raises (creating
    the directory, opening or writing either file, printing a line), the
    process ends there with exit status 1 in the state that statement
    left, nothing being tried again or run after it; in particular, when
    the destination directory does not exist yet and its parent is a
    directory that is not writable, the process ends with status 1 and
    has changed nothing, so no file was created. *)
Theorem C6_failure_is_fatal w :
  (∀ pre (m : IO unit) post w_mid e wk,
      steps = pre ++ m :: post →
      seq pre w = (Ok (), w_mid) →
      m w_mid = (Raise e, wk) →
      main w = (1%Z, wk))
  ∧ (attr (root w) assets = Ok (false, None) →
     ¬ is_directory (root w) rules →
     main w = (1%Z, w)).
Proof.
  split.
  - intros pre m post w_mid e wk Hsteps Hpre Hm.
    unfold main. rewrite seq_steps, Hsteps.
    by rewrite (seq_fails pre m post w w_mid e wk Hpre Hm).
  - intros Ha Hn.
    assert (mkdir_p (root w) rules = None) as Hp.
    { unfold attr in Ha.
      destruct (stat (root w) assets) as [[|dw ents]|] eqn:Es; try done.
      injection Ha as ->.
      change rules with (assets ++ ["rules"]) in Hn |- *.
      rewrite (mkdir_p_leaf _ _ "rules" _ _ Es).
      destruct (ents !! "rules") as [[|dw' ents']|] eqn:El; try done.
      destruct Hn. unfold is_directory.
      rewrite (stat_snoc _ _ "rules" _ _ Es), El. by eexists _, _. }
    pose proof (mkdir_refines assets_dir w) as Hm.
    fold rules in Hm. rewrite Hp in Hm. destruct Hm as [e Hm].
    unfold main, create_rule_assets, bind. by rewrite Hm.
Qed.

Lemma C6_witness :
  main readonly_empty_parent_world = (1%Z, readonly_empty_parent_world).
Proof.
  apply (C6_failure_is_fatal readonly_empty_parent_world).
  - vm_compute. reflexivity.
  - intros (dw & H)%is_directory_attr. vm_compute in H. discriminate.
Defined.

(** C7: whatever the outcome of a run, every file other than the two
    named ones keeps its data and its permission, and no other file
    appears; and when the target directory already exists, the same
    holds of every other path, directories included: only the two named
    files are created or overwritten. *)
Theorem C7_unrelated_files_untouched w res w' :
  create_rule_assets w = (res, w') →
  (∀ q fw d, q ≠ dm_file → q ≠ ep_file →
             file_at (root w') q fw d ↔ file_at (root w) q fw d)
  ∧ (is_directory (root w) rules →
     ∀ q a, q ≠ dm_file → q ≠ ep_file →
            attr (root w') q = Ok a ↔ attr (root w) q = Ok a).
Proof.
  intros (Hf & Ha & _)%run_inv. split.
  - intros q fw d H1 H2. apply Hf. set_unfold. tauto.
  - intros Hd q a H1 H2. apply (Ha _ (mkdir_p_existing _ _ Hd)).
    set_unfold. tauto.
Qed.

Lemma C7_witness :
  file_at (root (snd (create_rule_assets used_world)))
    (rules ++ ["NOTES.txt"]) false "keep me"
  ∧ attr (root (snd (create_rule_assets used_world))) rules = Ok (true, None).
Proof.
  destruct (C7_unrelated_files_untouched used_world
              (fst (create_rule_assets used_world))
              (snd (create_rule_assets used_world))) as [Hfile Hattr].
  - vm_compute. reflexivity.
  - split.
    + apply Hfile.
      * vm_compute. discriminate.
      * vm_compute. discriminate.
      * vm_compute. reflexivity.
    + apply Hattr.
      * apply is_directory_attr. exists true. vm_compute. reflexivity.
      * vm_compute. discriminate.
      * vm_compute. discriminate.
      * vm_compute. reflexivity.
Defined.




(** C9: in both generated documents every weight is an integer between
    1 and 3, and the weights of step3_scoring grow with the severity:
    low 1, medium 2, high 3. *)
Theorem C9_weights_in_range :
  loads dm_text = Some dishonesty_matrix
  ∧ loads ep_text = Some extraction_protocol
  ∧ weights dishonesty_matrix = [JInt 3; JInt 2; JInt 3]
  ∧ weights extraction_protocol = [JInt 1; JInt 2; JInt 3]
  ∧ Forall (λ v, ∃ z, v = JInt z ∧ (1 ≤ z ≤ 3)%Z)
      (weights dishonesty_matrix ++ weights extraction_protocol)
  ∧ ∃ lo me hi,
      get_path ["step3_scoring"; "low"; "weight"] extraction_protocol
      = Some (JInt lo)
      ∧ get_path ["step3_scoring"; "medium"; "weight"] extraction_protocol
        = Some (JInt me)
      ∧ get_path ["step3_scoring"; "high"; "weight"] extraction_protocol
        = Some (JInt hi)
      ∧ lo = 1%Z ∧ me = 2%Z ∧ hi = 3%Z ∧ (lo < me < hi)%Z.
Proof.
  split; [apply texts_parse|]. split; [apply texts_parse|].
  split; [reflexivity|]. split; [reflexivity|]. split.
  - repeat constructor; eexists; (split; [reflexivity|lia]).
  - exists 1%Z, 2%Z, 3%Z. split_and!; try reflexivity; lia.
Qed.

(** C10: every string of the generated step2_tags and every color of
    step3_scoring begins with the hash sign, and each color is the hash
    sign followed by exactly six hexadecimal digits. *)
Theorem C10_hash_prefixes :
  loads ep_text = Some extraction_protocol
  ∧ ∃ (tags : list string) lo me hi,
      get "step2_tags" extraction_protocol = Some (JList (map JStr tags))
      ∧ List.length tags = 4%nat
      ∧ Forall (λ s, starts_with_hash s = true) tags
      ∧ get_path ["step3_scoring"; "low"; "color"] extraction_protocol
        = Some (JStr lo)
      ∧ get_path ["step3_scoring"; "medium"; "color"] extraction_protocol
        = Some (JStr me)
      ∧ get_path ["step3_scoring"; "high"; "color"] extraction_protocol
        = Some (JStr hi)
      ∧ Forall (λ s, starts_with_hash s = true ∧ is_hex_color s = true)
          [lo; me; hi].
Proof.
  split; [apply texts_parse|].
  exists ["#Cybercrime"; "#Fraud"; "#Oppression"; "#FiduciaryBreach"],
         "#4CAF50", "#FF9800", "#F44336".
  split_and!; try reflexivity; repeat constructor.
Qed.

End Claims.

(* ===================================================================== *)
(** ** The run, stage by stage *)
(* ===================================================================== *)

Section Stages.
Import Json Os Pathlib GenerateAssets Observe Behaviour.

Implicit Types (n m x t : node) (p q : list string) (c name s : string).
Implicit Types (ents : gmap string node) (w : world).

Lemma print_printing s w :
  is_ascii s = false →
  print s w = if stdout_unicode w then (Ok (), printing [s] w)
              else (Raise UnicodeEncodeError, w).
Proof. apply print_inv. Qed.

(** A run, stage by stage: it ends at the first stage that raises. *)
Lemma run_cases w res w' :
  create_rule_assets w = (res, w') →
  (∃ e, Pathlib.mkdir assets_dir true true w = (Raise e, w')
        ∧ res = Raise e)
  ∨ ∃ w1, Pathlib.mkdir assets_dir true true w = (Ok (), w1) ∧
      ((∃ e, write_dm w1 = (Raise e, w') ∧ res = Raise e)
       ∨ ∃ w2, write_dm w1 = (Ok (), w2) ∧
           ((stdout_unicode w2 = false
             ∧ res = Raise UnicodeEncodeError ∧ w' = w2)
            ∨ (stdout_unicode w2 = true ∧
               ((∃ e, write_ep (printing (take 1 printed) w2) = (Raise e, w')
                      ∧ res = Raise e)
                ∨ ∃ w4, write_ep (printing (take 1 printed) w2) = (Ok (), w4)
                        ∧ res = Ok ()
                        ∧ w' = printing (drop 1 printed) w4)))).
Proof.
  unfold create_rule_assets. rewrite dm_path_eq, ep_path_eq.
  fold write_dm write_ep. intros E. unfold bind at 1 in E.
  destruct (Pathlib.mkdir assets_dir true true w) as [[[]|e] w1];
    [|apply pair_equal_spec in E as [<- <-]; left; eauto].
  right. exists w1. split; [done|]. unfold bind at 1 in E.
  destruct (write_dm w1) as [[[]|e] w2];
    [|apply pair_equal_spec in E as [<- <-]; left; eauto].
  right. exists w2. split; [done|]. unfold bind at 1 in E.
  rewrite print_printing in E by reflexivity.
  destruct (stdout_unicode w2) eqn:Hu;
    [|apply pair_equal_spec in E as [<- <-]; left; eauto].
  right. split; [done|].
  change (printing [_] w2) with (printing (take 1 printed) w2) in E.
  unfold bind at 1 in E.
  destruct (write_ep (printing (take 1 printed) w2)) as [[[]|e] w4] eqn:E2;
    [|apply pair_equal_spec in E as [<- <-]; left; eauto].
  right. exists w4. split; [done|].
  apply dump_unicode in E2. cbn [printing stdout_unicode] in E2.
  rewrite Hu in E2.
  unfold bind at 1 in E. rewrite print_printing, E2 in E by reflexivity.
  unfold bind in E. rewrite print_printing in E by reflexivity.
  cbn [printing stdout_unicode] in E. rewrite E2 in E.
  apply pair_equal_spec in E as [<- <-]. split; [done|].
  unfold printing. cbn [root free stdout stdout_unicode].
  by rewrite <- app_assoc.
Qed.

Lemma mkdir_inv w res w1 :
  Pathlib.mkdir assets_dir true true w = (res, w1) →
  match res with
  | Ok _ => ∃ t, mkdir_p (root w) rules = Some t
                 ∧ w1 = World t (free w) (stdout w) (stdout_unicode w)
  | Raise _ => mkdir_p (root w) rules = None ∧ w1 = w
  end.
Proof.
  pose proof (mkdir_refines assets_dir w) as Hm. fold rules in Hm.
  destruct (mkdir_p (root w) rules) as [t|]; cbn [mkdir_outcome] in Hm.
  - rewrite Hm. intros [<- <-]%pair_equal_spec. eauto.
  - destruct Hm as [e ->]. by intros [<- <-]%pair_equal_spec.
Qed.

Lemma write_dm_inv w res w' :
  write_dm w = (res, w') →
  same_except [dm_file] (root w) (root w') ∧ stdout w' = stdout w ∧
  match res with
  | Ok _ => openable (root w) rules "dishonesty_matrix.json" = true
            ∧ (size dm_text <= free w + size_at (root w) dm_file)%N
            ∧ file_at (root w') dm_file true dm_text
            ∧ free w' = (free w + size_at (root w) dm_file - size dm_text)%N
  | Raise e => (w' = w ∧ openable (root w) rules "dishonesty_matrix.json" = false)
               ∨ (e = NoSpaceError
                  ∧ openable (root w) rules "dishonesty_matrix.json" = true
                  ∧ (free w + size_at (root w) dm_file < size dm_text)%N)
  end.
Proof. intros E. by apply dump_inv in E. Qed.

Lemma write_ep_inv w res w' :
  write_ep w = (res, w') →
  same_except [ep_file] (root w) (root w') ∧ stdout w' = stdout w ∧
  match res with
  | Ok _ => openable (root w) rules "extraction_protocol.json" = true
            ∧ (size ep_text <= free w + size_at (root w) ep_file)%N
            ∧ file_at (root w') ep_file true ep_text
            ∧ free w' = (free w + size_at (root w) ep_file - size ep_text)%N
  | Raise e => (w' = w ∧ openable (root w) rules "extraction_protocol.json" = false)
               ∨ (e = NoSpaceError
                  ∧ openable (root w) rules "extraction_protocol.json" = true
                  ∧ (free w + size_at (root w) ep_file < size ep_text)%N)
  end.
Proof. intros E. by apply dump_inv in E. Qed.

Lemma dm_not_ep : dm_file ∉ [ep_file].
Proof. rewrite list_elem_of_singleton. apply files_differ. Qed.

Lemma ep_not_dm : ep_file ∉ [dm_file].
Proof. rewrite list_elem_of_singleton. intros ?. by apply files_differ. Qed.

(** X1: the confirmation lines are truthful.  Whatever the outcome, a
    run adds to standard output the first 0, 1 or 3 of its three lines
    and nothing else; the line naming dishonesty_matrix.json is there
    only if that file holds its whole text, all three lines are there
    exactly when the run completes, and then extraction_protocol.json
    holds its whole text too. *)
Theorem X1_printed_lines_truthful w :
  let res := fst (create_rule_assets w) in
  let w' := snd (create_rule_assets w) in
  ∃ k, stdout w' = stdout w ++ take k printed
       ∧ (k = 0 ∨ k = 1 ∨ k = 3)%nat
       ∧ (k = 3%nat ↔ res = Ok ())
       ∧ (1 ≤ k → file_at (root w') dm_file true dm_text)%nat
       ∧ (k = 3%nat → file_at (root w') ep_file true ep_text).
Proof.
  cbn zeta. destruct (create_rule_assets w) as [res w'] eqn:E. cbn [fst snd].
  apply run_cases in E as [(e & E0 & ->)|(w1 & E0 & E)].
  { apply mkdir_inv in E0 as (_ & ->). exists 0%nat.
    rewrite take_0, app_nil_r. split_and!; try done; try lia; auto. }
  apply mkdir_inv in E0 as (t & _ & ->).
  destruct E as [(e & E1 & ->)|(w2 & E1 & E)].
  { apply write_dm_inv in E1 as (_ & Ho & _). exists 0%nat.
    rewrite take_0, app_nil_r. split_and!; try done; try lia; auto. }
  apply write_dm_inv in E1 as (_ & Ho1 & _ & _ & F1 & _). cbn [stdout] in Ho1.
  destruct E as [(_ & -> & ->)|(_ & E)].
  { exists 0%nat. rewrite take_0, app_nil_r.
    split_and!; try done; try lia; auto. }
  destruct E as [(e & E2 & ->)|(w4 & E2 & -> & ->)].
  - apply write_ep_inv in E2 as (Hf2 & Ho2 & _). exists 1%nat.
    cbn [printing root stdout] in *. rewrite Ho2, Ho1.
    split_and!; try done; try lia; auto.
    intros _. apply file_at_attr, (Hf2 _ _ dm_not_ep). by apply file_at_attr.
  - apply write_ep_inv in E2 as (Hf2 & Ho2 & _ & _ & F2 & _). exists 3%nat.
    cbn [printing root stdout] in *. rewrite Ho2, Ho1, <- app_assoc.
    split_and!; try done; auto.
    intros _. apply file_at_attr, (Hf2 _ _ dm_not_ep). by apply file_at_attr.
Qed.

Lemma X1_witness :
  ∃ k, stdout (snd (create_rule_assets used_world))
       = stdout used_world ++ take k printed
       ∧ (k = 0 ∨ k = 1 ∨ k = 3)%nat
       ∧ (k = 3%nat ↔ fst (create_rule_assets used_world) = Ok ())
       ∧ (1 ≤ k → file_at (root (snd (create_rule_assets used_world)))
                    dm_file true dm_text)%nat
       ∧ (k = 3%nat → file_at (root (snd (create_rule_assets used_world)))
                        ep_file true ep_text).
Proof. exact (X1_printed_lines_truthful used_world). Defined.

(** Inside an existing directory the block raises [IsADirectoryError],
    [PermissionError] or a full disk only. *)
Lemma dump_raise_kind (pa : PosixPath) name obj w e w' :
  is_directory (root w) (parts pa) →
  with_open_w (Child pa name) (λ f, json_dump obj f 2) w = (Raise e, w') →
  write_error e.
Proof.
  intros (dw & ents & Hs) E. unfold write_error.
  pose proof E as (_ & _ & [(_ & Hop)|(-> & _)])%dump_inv; [|auto].
  revert E. unfold with_open_w, open_w, bind, Os.open_w.
  rewrite in_dir_eq, Hs.
  destruct (open_entry name dw ents) as [ents'|e0] eqn:Eo.
  - assert (openable (root w) (parts pa) name = true)
      by (apply openable_spec; eauto). congruence.
  - intros [= <- _]. unfold open_entry in Eo.
    destruct (ents !! name) as [[[] ?|]|]; try done; try (injection Eo as <-; auto).
    destruct dw; [done|]. injection Eo as <-; auto.
Qed.

Lemma same_except_is_directory fs n n' q :
  same_except fs n n' → q ∉ fs → is_directory n q → is_directory n' q.
Proof.
  intros H Hq (dw & Ha)%is_directory_attr. apply is_directory_attr.
  exists dw. by apply H.
Qed.

(** X2: the directory comes before the files.  A run that ends with an
    exception either ends in the directory-creation step, with the
    exception of that step, no regular file created or changed and
    nothing printed; or it ends with the destination directory in place,
    and then not with [FileNotFoundError] or [NotADirectoryError]: no
    [open] of the script fails for want of the directory. *)
Theorem X2_directory_before_files w e w' :
  create_rule_assets w = (Raise e, w') →
  (Pathlib.mkdir assets_dir true true w = (Raise e, w')
   ∧ (∀ q fw d, file_at (root w') q fw d ↔ file_at (root w) q fw d)
   ∧ stdout w' = stdout w)
  ∨ (is_directory (root w') rules
     ∧ e ≠ FileNotFoundError ∧ e ≠ NotADirectoryError).
Proof.
  intros E.
  apply run_cases in E as [(e0 & E0 & [= <-])|(w1 & E0 & E)].
  { left. split; [done|]. by apply mkdir_inv in E0 as (_ & ->). }
  right. apply mkdir_inv in E0 as (t & Ep & ->).
  pose proof (mkdir_p_is_directory _ _ _ Ep) as Hd.
  assert (∀ e0, write_error e0 →
                e0 ≠ FileNotFoundError ∧ e0 ≠ NotADirectoryError) as Hkind.
  { intros e0 [-> | [-> | ->]]; done. }
  assert (rules ∉ [dm_file]) as Hr1
    by (rewrite list_elem_of_singleton; apply rules_not_dm).
  assert (rules ∉ [ep_file]) as Hr2
    by (rewrite list_elem_of_singleton; apply rules_not_ep).
  destruct E as [(e0 & E1 & [= <-])|(w2 & E1 & E)].
  { split.
    - apply write_dm_inv in E1 as (Hf1 & _). cbn [root] in Hf1.
      by eapply same_except_is_directory.
    - apply Hkind. by eapply dump_raise_kind; [|exact E1]. }
  apply write_dm_inv in E1 as (Hf1 & _). cbn [root] in Hf1.
  assert (is_directory (root w2) rules) as Hd2
    by by eapply same_except_is_directory.
  destruct E as [(_ & [= ->] & ->)|(_ & E)]; [done|].
  destruct E as [(e0 & E2 & [= <-])|(w4 & _ & ? & _)]; [|done].
  split.
  - apply write_ep_inv in E2 as (Hf2 & _). cbn [printing root] in Hf2.
    by eapply same_except_is_directory.
  - apply Hkind. by eapply dump_raise_kind; [|exact E2].
Qed.

Lemma X2_witness :
  (Pathlib.mkdir assets_dir true true ascii_world
   = (Raise UnicodeEncodeError, snd (create_rule_assets ascii_world))
   ∧ (∀ q fw d, file_at (root (snd (create_rule_assets ascii_world))) q fw d
                ↔ file_at (root ascii_world) q fw d)
   ∧ stdout (snd (create_rule_assets ascii_world)) = stdout ascii_world)
  ∨ (is_directory (root (snd (create_rule_assets ascii_world))) rules
     ∧ UnicodeEncodeError ≠ FileNotFoundError
     ∧ UnicodeEncodeError ≠ NotADirectoryError).
Proof.
  apply (X2_directory_before_files ascii_world).
  vm_compute. reflexivity.
Defined.

Lemma chain_attr p q a :
  attr (chain p) q = Ok a → a = (true, None) ∧ ∃ r, p = q ++ r.
Proof.
  revert q. induction p as [|c p IH]; intros [|c' q]; cbn [chain].
  - intros [= <-]. split; [done|]. by exists [].
  - rewrite attr_cons, lookup_empty. done.
  - intros [= <-]. split; [done|]. by eexists.
  - rewrite attr_cons. destruct (decide (c' = c)) as [->|Hc].
    + rewrite lookup_singleton_eq. intros (-> & r & ->)%IH.
      split; [done|]. by exists r.
    + by rewrite lookup_singleton_ne.
Qed.

(** [mkdir_p] keeps every directory with its permission, and the
    directories it adds are writable and lie on the path. *)
Lemma mkdir_p_dirs n p t :
  mkdir_p n p = Some t →
  ∀ q dw,
    (attr n q = Ok (dw, None) → attr t q = Ok (dw, None))
    ∧ (attr t q = Ok (dw, None) →
       attr n q = Ok (dw, None) ∨ (dw = true ∧ q ≠ [] ∧ ∃ r, p = q ++ r)).
Proof.
  revert n t. induction p as [|c p IH]; intros [|dw0 ents] t; cbn [mkdir_p]; try done.
  - intros [= <-] q dw. auto.
  - destruct (ents !! c) as [ch|] eqn:E.
    + destruct (mkdir_p ch p) as [ch'|] eqn:E'; [|done]. intros [= <-].
      intros [|c' q] dw; [auto|]. rewrite !attr_cons.
      destruct (decide (c' = c)) as [->|Hc].
      * rewrite lookup_insert_eq, E. destruct (IH _ _ E' q dw) as [H1 H2].
        split; [done|]. intros [?|(-> & _ & r & ->)]%H2; [by left|].
        right. split_and!; [done..|]. by exists r.
      * rewrite lookup_insert_ne by done. auto.
    + destruct dw0; [|done]. intros [= <-].
      intros [|c' q] dw; [auto|]. rewrite !attr_cons.
      destruct (decide (c' = c)) as [->|Hc].
      * rewrite lookup_insert_eq, E. split; [done|].
        intros ([= <-] & r & ->)%chain_attr. right.
        split_and!; [done..|]. by exists r.
      * rewrite lookup_insert_ne by done. auto.
Qed.

(** A [with open(...)] block neither adds nor removes a directory. *)
Lemma dump_dirs (pa : PosixPath) name obj w res w' :
  with_open_w (Child pa name) (λ f, json_dump obj f 2) w = (res, w') →
  ∀ q dw, attr (root w') q = Ok (dw, None) ↔ attr (root w) q = Ok (dw, None).
Proof.
  intros E q dw.
  destruct (decide (q = parts pa ++ [name])) as [->|Hq].
  2:{ apply dump_inv in E as (Hf & _). apply Hf.
      by rewrite list_elem_of_singleton. }
  destruct (openable (root w) (parts pa) name) eqn:Hop.
  - pose proof Hop as (dw0 & ents & ents1 & Hs & _)%openable_spec.
    assert (∀ dw1, attr (root w) (parts pa ++ [name]) ≠ Ok (dw1, None)) as Hno.
    { intros dw1. unfold openable in Hop. rewrite Hs in Hop.
      unfold attr. rewrite (stat_snoc _ _ name _ _ Hs).
      by destruct (ents !! name) as [[|]|]. }
    rewrite (dump_exact pa name obj w dw0 ents Hs Hop) in E. cbn zeta in E.
    split; [|by intros ?%Hno].
    destruct (_ <=? _)%N; apply pair_equal_spec in E as [_ <-]; cbn [root];
      unfold attr; by rewrite (file_at_put_entry _ _ _ _ _ _ Hs).
  - destruct (dump_unopenable pa name obj w Hop) as [e He].
    specialize (He (stdout w)). rewrite world_eta in He. rewrite He in E.
    by apply pair_equal_spec in E as [_ <-].
Qed.

(** X3: the script removes no directory and changes no permission of
    one, and the only directories it creates are the destination
    directory and its ancestors, all writable.  This holds whatever the
    outcome of the run. *)
Theorem X3_directories_only_on_the_way w :
  let w' := snd (create_rule_assets w) in
  ∀ q dw,
    (attr (root w) q = Ok (dw, None) → attr (root w') q = Ok (dw, None))
    ∧ (attr (root w') q = Ok (dw, None) →
       attr (root w) q = Ok (dw, None) ∨ (dw = true ∧ on_the_way q)).
Proof.
  cbn zeta. destruct (create_rule_assets w) as [res w'] eqn:E. cbn [snd].
  intros q dw.
  apply run_cases in E as [(e & E0 & ->)|(w1 & E0 & E)].
  { apply mkdir_inv in E0 as (_ & ->). auto. }
  apply mkdir_inv in E0 as (t & Ep & ->).
  assert (attr (root w') q = Ok (dw, None) ↔ attr t q = Ok (dw, None)) as ->.
  { destruct E as [(e & E1 & _)|(w2 & E1 & E)].
    { by rewrite (dump_dirs _ _ _ _ _ _ E1). }
    pose proof (dump_dirs _ _ _ _ _ _ E1 q dw) as H1. cbn [root] in H1.
    destruct E as [(_ & _ & ->)|(_ & E)]; [done|].
    destruct E as [(e & E2 & _)|(w4 & E2 & _ & ->)];
      pose proof (dump_dirs _ _ _ _ _ _ E2 q dw) as H2;
      cbn [printing root] in *; by rewrite H2. }
  destruct (mkdir_p_dirs _ _ _ Ep q dw) as [H1 H2]. split; [done|].
  intros [?|(? & ? & ?)]%H2; [by left|by right].
Qed.

Lemma X3_witness :
  attr (root (snd (create_rule_assets fresh_world))) ["app"; "src"]
  = Ok (true, None)
  ∧ on_the_way ["app"; "src"].
Proof.
  destruct (X3_directories_only_on_the_way fresh_world ["app"; "src"] true)
    as [_ H].
  destruct H as [H|[_ H]].
  - vm_compute. reflexivity.
  - vm_compute in H. discriminate.
  - split; [vm_compute; reflexivity|exact H].
Defined.

(** The block raises what [open] raises, and changes nothing. *)
Lemma dump_blocked (pa : PosixPath) name obj w dw ents e :
  stat (root w) (parts pa) = Ok (Dir dw ents) →
  open_entry name dw ents = Raise e →
  with_open_w (Child pa name) (λ f, json_dump obj f 2) w = (Raise e, w).
Proof.
  intros Hs Ho. unfold with_open_w, open_w, bind, Os.open_w.
  by rewrite in_dir_eq, Hs, Ho.
Qed.

Lemma run_in_rules w :
  is_directory (root w) rules → create_rule_assets w = after_mkdir w.
Proof.
  intros Hd. rewrite run_split. unfold bind. by rewrite (mkdir_existing _ Hd).
Qed.

Lemma after_mkdir_eq w :
  after_mkdir w
  = match write_dm w with
    | (Ok _, w2) =>
        if stdout_unicode w2 then
          match write_ep (printing (take 1 printed) w2) with
          | (Ok _, w4) => (Ok (), printing (drop 1 printed) w4)
          | (Raise e, w4) => (Raise e, w4)
          end
        else (Raise UnicodeEncodeError, w2)
    | (Raise e, w2) => (Raise e, w2)
    end.
Proof.
  unfold after_mkdir. rewrite dm_path_eq, ep_path_eq.
  fold write_dm write_ep.
  unfold bind at 1. destruct (write_dm w) as [[[]|e] w2]; [|done].
  unfold bind at 1. rewrite print_printing by reflexivity.
  destruct (stdout_unicode w2) eqn:Hu; [|done].
  change (printing [_] w2) with (printing (take 1 printed) w2).
  unfold bind at 1.
  destruct (write_ep (printing (take 1 printed) w2)) as [[[]|e] w4] eqn:E2;
    [|done].
  apply dump_unicode in E2. cbn [printing stdout_unicode] in E2.
  rewrite Hu in E2.
  unfold bind at 1. rewrite print_printing, E2 by reflexivity.
  unfold bind. rewrite print_printing by reflexivity.
  cbn [printing stdout_unicode]. rewrite E2.
  unfold printing. cbn [root free stdout stdout_unicode].
  by rewrite <- app_assoc.
Qed.

(** X4: when dishonesty_matrix.json cannot be opened for writing, the
    run ends at once and leaves everything as it was, the other file and
    standard output included: with [PermissionError] when the file is
    there and read-only, with [IsADirectoryError] when a directory has
    its name. *)
Theorem X4_first_file_blocked w :
  (∀ d, file_at (root w) dm_file false d →
        create_rule_assets w = (Raise PermissionError, w))
  ∧ (is_directory (root w) dm_file →
     create_rule_assets w = (Raise IsADirectoryError, w)).
Proof.
  assert (∀ x e, stat (root w) dm_file = Ok x →
                 (∀ dw ents, ents !! "dishonesty_matrix.json" = Some x →
                             open_entry "dishonesty_matrix.json" dw ents = Raise e) →
                 create_rule_assets w = (Raise e, w)) as H.
  { intros x e Hx Ho. rewrite dm_file_eq in Hx.
    apply stat_snoc_inv in Hx as (dw & ents & Hs & Hl).
    rewrite run_in_rules by by eexists _, _.
    rewrite after_mkdir_eq. unfold write_dm.
    by rewrite (dump_blocked _ _ _ _ _ _ e Hs (Ho _ _ Hl)). }
  split.
  - intros d F. apply (H _ _ F). intros dw ents Hl. unfold open_entry.
    by rewrite Hl.
  - intros (dw0 & ents0 & F). apply (H _ _ F). intros dw ents Hl.
    unfold open_entry. by rewrite Hl.
Qed.

Lemma X4_witness :
  create_rule_assets readonly_dm_world = (Raise PermissionError, readonly_dm_world).
Proof.
  apply (proj1 (X4_first_file_blocked readonly_dm_world) "old").
  vm_compute. reflexivity.
Defined.

(** X5: there is no rollback.  When extraction_protocol.json is there
    and read-only and the block that writes dishonesty_matrix.json
    succeeds, the run still ends with an exception, and it leaves the
    first file with its new text and the second as it was.  On a
    standard output that takes the check mark the line of the first
    file is printed and the exception is the [PermissionError] of the
    second [open]; on one that does not, nothing is printed and the
    exception is the [UnicodeEncodeError] of the first [print]. *)
Theorem X5_second_file_blocked w d w1 :
  file_at (root w) ep_file false d →
  write_dm w = (Ok (), w1) →
  ∃ e w', create_rule_assets w = (Raise e, w')
          ∧ file_at (root w') dm_file true dm_text
          ∧ file_at (root w') ep_file false d
          ∧ if stdout_unicode w
            then e = PermissionError
                 ∧ stdout w' = stdout w ++ take 1 printed
            else e = UnicodeEncodeError ∧ stdout w' = stdout w.
Proof.
  intros F2 E1.
  assert (is_directory (root w) rules) as Hd.
  { rewrite ep_file_eq in F2.
    apply stat_snoc_inv in F2 as (dw & ents & Hs & _). by eexists _, _. }
  rewrite run_in_rules by done. rewrite after_mkdir_eq, E1.
  pose proof (dump_unicode _ _ _ _ _ _ E1) as Hu.
  apply write_dm_inv in E1 as (Hf1 & Ho1 & _ & _ & F1 & _).
  assert (file_at (root w1) ep_file false d) as F2'.
  { apply file_at_attr, (Hf1 _ _ ep_not_dm). by apply file_at_attr. }
  rewrite Hu. destruct (stdout_unicode w) eqn:Hw.
  - pose proof F2' as F2''. rewrite ep_file_eq in F2''.
    apply stat_snoc_inv in F2'' as (dw & ents & Hs & Hl).
    unfold write_ep. erewrite (dump_blocked assets_dir);
      [|cbn [printing root]; exact Hs|unfold open_entry; by rewrite Hl].
    eexists _, _. split; [done|]. cbn [printing root stdout].
    split_and!; try done. by rewrite Ho1.
  - eexists _, _. split; [done|]. by split_and!.
Qed.

Lemma X5_witness :
  ∃ e w', create_rule_assets readonly_ep_world = (Raise e, w')
          ∧ file_at (root w') dm_file true dm_text
          ∧ file_at (root w') ep_file false "old"
          ∧ if stdout_unicode readonly_ep_world
            then e = PermissionError
                 ∧ stdout w' = stdout readonly_ep_world ++ take 1 printed
            else e = UnicodeEncodeError
                 ∧ stdout w' = stdout readonly_ep_world.
Proof.
  apply (X5_second_file_blocked readonly_ep_world "old"
           (snd (write_dm readonly_ep_world))).
  - vm_compute. reflexivity.
  - vm_compute. reflexivity.
Defined.

(** X6: the files are rewritten in place.  When dishonesty_matrix.json
    is there and writable and the block that writes it ends with an
    exception, the run ends with that exception and nothing is printed,
    and what the file held before is lost: it now holds a proper prefix
    of the new text, possibly the empty one. *)
Theorem X6_failed_write_truncates w old e w1 :
  file_at (root w) dm_file true old →
  write_dm w = (Raise e, w1) →
  create_rule_assets w = (Raise e, w1)
  ∧ stdout w1 = stdout w
  ∧ ∃ k, (k < String.length dm_text)%nat
         ∧ read_text w1 dm_path = Some (String.substring 0 k dm_text).
Proof.
  intros F E1. pose proof F as F'. rewrite dm_file_eq in F'.
  pose proof (file_openable _ _ _ _ F') as Hop.
  apply stat_snoc_inv in F' as (dw & ents & Hs & Hl).
  rewrite run_in_rules by by eexists _, _.
  rewrite after_mkdir_eq, E1. split; [done|].
  revert E1. unfold write_dm.
  rewrite (dump_exact _ _ _ _ _ _ Hs Hop). cbn zeta.
  fold rules dm_text. rewrite <- dm_file_eq.
  destruct (_ <=? _)%N eqn:Hle; [done|]. intros [_ <-]%pair_equal_spec.
  cbn [stdout]. split; [done|].
  exists (N.to_nat (free w + size_at (root w) dm_file)). split.
  - apply N.leb_gt in Hle. unfold size in Hle. lia.
  - unfold read_text. cbn [root]. change (parts dm_path) with dm_file.
    rewrite dm_file_eq. by rewrite (file_at_put_entry _ _ _ _ _ _ Hs).
Qed.

Lemma X6_witness :
  create_rule_assets small_disk_world
  = (Raise NoSpaceError, snd (write_dm small_disk_world))
  ∧ stdout (snd (write_dm small_disk_world)) = stdout small_disk_world
  ∧ ∃ k, (k < String.length dm_text)%nat
         ∧ read_text (snd (write_dm small_disk_world)) dm_path
           = Some (String.substring 0 k dm_text).
Proof.
  apply (X6_failed_write_truncates small_disk_world "{ old matrix }").
  - vm_compute. reflexivity.
  - vm_compute. reflexivity.
Defined.

End Stages.

(* ===================================================================== *)
(** ** The encoder writes ASCII *)
(* ===================================================================== *)

Section Encoder.
Import Json Os Pathlib GenerateAssets Observe Behaviour.

Lemma append_cons a (s t : string) : String a s +:+ t = String a (s +:+ t).
Proof. reflexivity. Qed.

Lemma append_nil_r (s : string) : s +:+ EmptyString = s.
Proof. induction s as [|a s IH]; [done|]. by rewrite append_cons, IH. Qed.

Lemma append_assoc (s t u : string) : (s +:+ t) +:+ u = s +:+ t +:+ u.
Proof. induction s as [|a s IH]; [done|]. by rewrite !append_cons, IH. Qed.

Lemma length_append (s t : string) :
  String.length (s +:+ t) = (String.length s + String.length t)%nat.
Proof. induction s as [|a s IH]; [done|]. rewrite append_cons. cbn. by rewrite IH. Qed.

(** An induction principle that reaches the values inside lists and
    dictionaries. *)
Lemma json_induction (P : json → Prop) :
  P JNull →
  (∀ b, P (JBool b)) →
  (∀ z, P (JInt z)) →
  (∀ s, P (JStr s)) →
  (∀ l, Forall P l → P (JList l)) →
  (∀ d, Forall (λ kv, P (snd kv)) d → P (JDict d)) →
  ∀ o, P o.
Proof.
  intros Hn Hb Hi Hs Hl Hd. fix IH 1. intros [| b | z | s | l | d].
  - exact Hn.
  - apply Hb.
  - apply Hi.
  - apply Hs.
  - apply Hl. induction l as [|o l IHl]; constructor; [apply IH|exact IHl].
  - apply Hd. induction d as [|[k v] d IHd]; constructor; [apply IH|exact IHd].
Qed.

Lemma ascii_text_app (s t : string) :
  ascii_text (s +:+ t) = ascii_text s && ascii_text t.
Proof.
  induction s as [|a s IH]; [done|]. rewrite append_cons. cbn [ascii_text].
  by rewrite IH, andb_assoc.
Qed.

Lemma escape_char_ascii c : ascii_text (escape_char c) = true.
Proof. destruct c as [[] [] [] [] [] [] [] []]; reflexivity. Qed.

Lemma escape_ascii s : ascii_text (escape s) = true.
Proof.
  induction s as [|a s IH]; [done|]. cbn [escape].
  by rewrite ascii_text_app, escape_char_ascii, IH.
Qed.

Lemma encode_basestring_ascii_text s :
  ascii_text (encode_basestring_ascii s) = true.
Proof.
  unfold encode_basestring_ascii. cbn [ascii_text].
  by rewrite ascii_text_app, escape_ascii.
Qed.

Lemma pretty_N_char_plain x : plain_char (pretty_N_char x) = true.
Proof. unfold pretty_N_char. by repeat case_match. Qed.

Lemma pretty_N_go_ascii x s :
  ascii_text s = true → ascii_text (pretty_N_go x s) = true.
Proof.
  revert s. induction (N.lt_wf_0 x) as [x _ IH]; intros s Hs.
  assert (x = 0 ∨ 0 < x)%N as [->|?] by lia; [by rewrite pretty_N_go_0|].
  rewrite pretty_N_go_step by done. apply IH; [by apply N.div_lt|].
  cbn [ascii_text]. by rewrite pretty_N_char_plain.
Qed.

Lemma pretty_N_ascii (x : N) : ascii_text (pretty x) = true.
Proof.
  unfold pretty, pretty_N. case_decide; [done|]. by apply pretty_N_go_ascii.
Qed.

Lemma pretty_Z_ascii (z : Z) : ascii_text (pretty z) = true.
Proof.
  destruct z as [|x|x]; [done| |].
  - apply (pretty_N_ascii (N.pos x)).
  - change (pretty (Z.neg x)) with ("-" +:+ pretty (N.pos x)).
    by rewrite ascii_text_app, pretty_N_ascii.
Qed.

Lemma spaces_ascii k : ascii_text (spaces k) = true.
Proof. induction k as [|k IH]; [done|]. cbn [spaces ascii_text]. by rewrite IH. Qed.

Lemma newline_indent_ascii i l : ascii_text (newline_indent i l) = true.
Proof. unfold newline_indent. cbn [ascii_text]. by rewrite spaces_ascii. Qed.

Lemma concat_ascii sep (l : list string) :
  ascii_text sep = true → Forall (λ s, ascii_text s = true) l →
  ascii_text (String.concat sep l) = true.
Proof.
  intros Hsep. induction 1 as [|s l Hs Hl IH]; [done|]. cbn [String.concat].
  destruct l as [|s' l]; [done|].
  change (ascii_text (s +:+ sep +:+ String.concat sep (s' :: l)) = true).
  by rewrite !ascii_text_app, Hs, Hsep, IH.
Qed.

Lemma encode_ascii indent level o : ascii_text (encode indent level o) = true.
Proof.
  revert level. induction o as [| b | z | s | l IH | d IH] using json_induction;
    intros level.
  - done.
  - by destruct b.
  - apply pretty_Z_ascii.
  - apply encode_basestring_ascii_text.
  - destruct l as [|o l]; [done|].
    change (encode indent level (JList (o :: l)))
      with ("[" +:+ newline_indent indent (S level)
            +:+ String.concat ("," +:+ newline_indent indent (S level))
                  (map (encode indent (S level)) (o :: l))
            +:+ newline_indent indent level +:+ "]").
    rewrite !ascii_text_app, !newline_indent_ascii, concat_ascii; [done| |].
    + by rewrite ascii_text_app, newline_indent_ascii.
    + apply Forall_map. eapply Forall_impl; [exact IH|]. intros x Hx. apply Hx.
  - destruct d as [|kv d]; [done|].
    change (encode indent level (JDict (kv :: d)))
      with ("{" +:+ newline_indent indent (S level)
            +:+ String.concat ("," +:+ newline_indent indent (S level))
                  (map (λ kv, encode_basestring_ascii (fst kv) +:+ ": "
                              +:+ encode indent (S level) (snd kv)) (kv :: d))
            +:+ newline_indent indent level +:+ "}").
    rewrite !ascii_text_app, !newline_indent_ascii, concat_ascii; [done| |].
    + by rewrite ascii_text_app, newline_indent_ascii.
    + apply Forall_map. eapply Forall_impl; [exact IH|]. intros x Hx. cbn beta.
      by rewrite !ascii_text_app, encode_basestring_ascii_text, Hx.
Qed.

Lemma ascii_text_utf8 s : ascii_text s = true → utf8_valid s = true.
Proof.
  induction s as [|a s IH]; [done|]. cbn [ascii_text utf8_valid].
  intros [Ha Hs]%andb_true_iff. rewrite (IH Hs).
  assert ((N_of_ascii a <? 128)%N = true) as ->; [|done].
  unfold plain_char in Ha. apply N.ltb_lt.
  apply orb_true_iff in Ha as [Ha%N.eqb_eq|[_ Ha%N.leb_le]%andb_true_iff]; lia.
Qed.

(** The block [with open(p, "w") as f: json.dump(obj, f, indent=indent)]
    leaves the text of [obj] in the file when it completes. *)
Lemma dump_text (pa : PosixPath) name obj indent w w' :
  with_open_w (Child pa name) (λ f, json_dump obj f indent) w = (Ok (), w') →
  read_text w' (Child pa name) = Some (dumps obj indent).
Proof.
  unfold with_open_w, open_w, json_dump, bind, ret. cbn [f_dir f_name].
  destruct (Os.open_w (parts pa) name w) as [[[]|e] w1] eqn:E1; [|done].
  apply open_w_inv in E1 as (_ & _ & _ & F1 & _).
  intros E2. eapply write_inv in E2 as (_ & _ & _ & F2 & _); [|exact F1].
  unfold read_text. cbn [parts]. by rewrite F2.
Qed.

(** X7: whatever value of type [json] is handed to [json.dump] (None, a
    boolean, an integer, a string of code points below 256, a list or a
    dictionary of such values, which covers the two dictionaries of the
    script), with whatever indent, the text it writes is made of line
    feeds and printable ASCII characters only, every other character of
    a string being escaped, and so is well-formed UTF-8; hence a file
    that a completed [with open(...)] block of the script has filled
    holds such a text. *)
Theorem X7_dump_is_ascii (o : json) (indent : nat) :
  ascii_text (dumps o indent) = true
  ∧ utf8_valid (dumps o indent) = true
  ∧ ∀ (pa : PosixPath) name w w',
      with_open_w (Child pa name) (λ f, json_dump o f indent) w = (Ok (), w') →
      ∃ text, read_text w' (Child pa name) = Some text
              ∧ ascii_text text = true ∧ utf8_valid text = true.
Proof.
  assert (ascii_text (dumps o indent) = true) as H by apply encode_ascii.
  assert (utf8_valid (dumps o indent) = true) as H' by by apply ascii_text_utf8.
  split; [done|]. split; [done|].
  intros pa name w w' E. exists (dumps o indent).
  split; [by eapply dump_text|done].
Qed.

Lemma X7_witness :
  ∃ text,
    read_text
      (snd (write_dm (snd (Pathlib.mkdir assets_dir true true fresh_world))))
      dm_path = Some text
    ∧ ascii_text text = true ∧ utf8_valid text = true.
Proof.
  apply (proj2 (proj2 (X7_dump_is_ascii dishonesty_matrix 2))
           assets_dir "dishonesty_matrix.json"
           (snd (Pathlib.mkdir assets_dir true true fresh_world))).
  vm_compute. reflexivity.
Defined.

End Encoder.

(* ===================================================================== *)
(** ** Paths and their text *)
(* ===================================================================== *)

Section Paths.
Import Json Os Pathlib GenerateAssets Observe Behaviour.

Implicit Types (pa : PosixPath) (name s : string) (names : list string).

Lemma split_slash_no_slash cur s :
  no_slash s = true → split_slash cur s = [String.rev_app cur s].
Proof.
  revert cur. induction s as [|a s IH]; intros cur; [done|].
  cbn [no_slash split_slash]. intros [Ha Hs]%andb_true_iff.
  apply negb_true_iff in Ha. rewrite Ha. by rewrite IH.
Qed.

Lemma split_slash_app cur s t :
  no_slash s = true →
  split_slash cur (s +:+ String "/" t)
  = String.rev_app cur s :: split_slash EmptyString t.
Proof.
  revert cur. induction s as [|a s IH]; intros cur.
  - intros _. reflexivity.
  - cbn [no_slash]. intros [Ha Hs]%andb_true_iff. apply negb_true_iff in Ha.
    rewrite append_cons. cbn [split_slash]. rewrite Ha. by rewrite IH.
Qed.

Lemma plain_name_no_slash name : plain_name name = true → no_slash name = true.
Proof. unfold plain_name. by intros [_ ?]%andb_true_iff. Qed.

Lemma plain_name_kept name :
  plain_name name = true →
  String.eqb name EmptyString || String.eqb name "." = false.
Proof.
  unfold plain_name.
  intros [[H1%negb_true_iff H2%negb_true_iff]%andb_true_iff _]%andb_true_iff.
  by rewrite H1, H2.
Qed.

Lemma split_slash_names names :
  Forall (λ s, no_slash s = true) names → names ≠ [] →
  split_slash EmptyString (String.concat "/" names) = names.
Proof.
  induction 1 as [|s names Hs Hn IH]; [done|]. intros _. cbn [String.concat].
  destruct names as [|s' names].
  - by rewrite split_slash_no_slash.
  - change (split_slash EmptyString (s +:+ String "/" (String.concat "/" (s' :: names)))
            = s :: s' :: names).
    rewrite split_slash_app by done. f_equal. by apply IH.
Qed.

Lemma truediv_names pa names :
  Forall (λ s, plain_name s = true) names →
  parts (fold_left (λ p c, if String.eqb c EmptyString || String.eqb c "."
                           then p else Child p c) names pa)
  = parts pa ++ names.
Proof.
  intros H. revert pa. induction H as [|s names Hs Hn IH]; intros pa.
  - by rewrite app_nil_r.
  - cbn [fold_left]. rewrite (plain_name_kept _ Hs), IH. cbn [parts].
    by rewrite <- app_assoc.
Qed.

Lemma concat_snoc sep (l : list string) x :
  l ≠ [] → String.concat sep (l ++ [x]) = String.concat sep l +:+ sep +:+ x.
Proof.
  induction l as [|a l IH]; [done|]. intros _. destruct l as [|b l].
  - reflexivity.
  - change (a +:+ sep +:+ String.concat sep ((b :: l) ++ [x])
            = (a +:+ sep +:+ String.concat sep (b :: l)) +:+ sep +:+ x).
    rewrite IH by done. by rewrite !append_assoc.
Qed.

Lemma str_parts pa : parts pa ≠ [] → str pa = String.concat "/" (parts pa).
Proof. by destruct pa. Qed.

(** X8: paths are taken apart and put together consistently.  For
    plain names (not empty, not a dot, no slash) [Path] cuts the joined
    names back into the same components, [str] joins them again, and the
    text [str(dir) + "/" + name] that the script prints is the text of
    the path [dir / name] that it opens. *)
Theorem X8_path_round_trip names name :
  Forall (λ s, plain_name s = true) names → names ≠ [] →
  plain_name name = true →
  let dir := Path (String.concat "/" names) in
  parts dir = names
  ∧ str dir = String.concat "/" names
  ∧ parts (truediv dir name) = names ++ [name]
  ∧ str (truediv dir name) = str dir +:+ "/" +:+ name.
Proof.
  intros Hn Hne Hname dir.
  assert (parts dir = names) as Hp.
  { unfold dir, Path, truediv. rewrite split_slash_names; [|..|done].
    - by rewrite truediv_names.
    - eapply Forall_impl; [exact Hn|]. apply plain_name_no_slash. }
  assert (parts (truediv dir name) = names ++ [name]) as Hp'.
  { unfold truediv. rewrite split_slash_no_slash by by apply plain_name_no_slash.
    rewrite truediv_names by (by repeat constructor). by rewrite Hp. }
  split; [done|].
  assert (str dir = String.concat "/" names) as Hs.
  { rewrite str_parts, Hp; [done|]. by rewrite Hp. }
  split; [done|]. split; [done|].
  rewrite str_parts, Hp', Hs; [|rewrite Hp'; by destruct names].
  by apply concat_snoc.
Qed.

Lemma X8_witness :
  parts assets_dir = ["app"; "src"; "main"; "assets"; "rules"]
  ∧ str assets_dir = "app/src/main/assets/rules"
  ∧ parts (truediv assets_dir "dishonesty_matrix.json")
    = ["app"; "src"; "main"; "assets"; "rules"; "dishonesty_matrix.json"]
  ∧ str (truediv assets_dir "dishonesty_matrix.json")
    = str assets_dir +:+ "/" +:+ "dishonesty_matrix.json".
Proof.
  apply (X8_path_round_trip ["app"; "src"; "main"; "assets"; "rules"]
           "dishonesty_matrix.json").
  - repeat constructor.
  - discriminate.
  - reflexivity.
Defined.

End Paths.

(* ===================================================================== *)
(** ** Reading back what the encoder wrote *)
(* ===================================================================== *)

Section RoundTrip.

Ltac in_list :=
  cbn; repeat first [apply list_elem_of_here | apply list_elem_of_further].

Import Json Os Pathlib GenerateAssets Observe Behaviour.

Implicit Types (o v : json) (s t rest : string) (fuel f : nat) (c : ascii).

(** *** White space *)

Lemma skip_ws_idem s : skip_ws (skip_ws s) = skip_ws s.
Proof.
  induction s as [|c s IH]; [done|]. cbn [skip_ws].
  destruct (is_ws c) eqn:E; [done|]. cbn [skip_ws]. by rewrite E.
Qed.

Lemma skip_ws_spaces k t : skip_ws (spaces k +:+ t) = skip_ws t.
Proof. induction k as [|k IH]; [done|]. cbn [spaces]. by rewrite append_cons. Qed.

Lemma skip_ws_newline i l t : skip_ws (newline_indent i l +:+ t) = skip_ws t.
Proof.
  unfold newline_indent. rewrite append_cons.
  change (skip_ws (String LF ?x)) with (skip_ws x). apply skip_ws_spaces.
Qed.

Lemma value_heads_cases c :
  c ∈ value_heads →
  c = "-"%char ∨ c = "0"%char ∨ c = "1"%char ∨ c = "2"%char ∨ c = "3"%char
  ∨ c = "4"%char ∨ c = "5"%char ∨ c = "6"%char ∨ c = "7"%char ∨ c = "8"%char
  ∨ c = "9"%char ∨ c = "n"%char ∨ c = "t"%char ∨ c = "f"%char ∨ c = "["%char
  ∨ c = "{"%char ∨ c = quote.
Proof. unfold value_heads. cbn. set_unfold. tauto. Qed.

Lemma skip_ws_head c t : c ∈ value_heads → skip_ws (String c t) = String c t.
Proof.
  intros H%value_heads_cases.
  repeat (destruct H as [->|H]; [reflexivity|]). by subst.
Qed.

(** *** Unfolding the reader *)

Lemma read_value_ws fuel s s' :
  skip_ws s = skip_ws s' → read_value fuel s = read_value fuel s'.
Proof. intros H. destruct fuel; [done|]. cbn [read_value]. by rewrite H. Qed.

Lemma read_elements_S fuel s :
  read_elements (S fuel) s =
  match read_value fuel s with
  | Some (v, s1) =>
      match skip_ws s1 with
      | String "]" s2 => Some ([v], s2)
      | String "," s2 =>
          match read_elements fuel s2 with
          | Some (l, rest) => Some (v :: l, rest)
          | None => None
          end
      | _ => None
      end
  | None => None
  end.
Proof. reflexivity. Qed.

Lemma read_value_list fuel s1 c t :
  skip_ws s1 = String c t → c ∈ value_heads →
  read_value (S fuel) (String "[" s1) =
  match read_elements fuel s1 with
  | Some (l, rest) => Some (JList l, rest)
  | None => None
  end.
Proof.
  intros Hs H%value_heads_cases. cbn [read_value].
  change (skip_ws (String "[" s1)) with (String "[" s1). cbv iota beta.
  rewrite Hs.
  repeat (destruct H as [->|H]; [reflexivity|]). by subst.
Qed.

(** *** Strings *)

Lemma read_chars_escape_char c t :
  read_chars (escape_char c +:+ t) =
  match read_chars t with
  | Some (u, r) => Some (String c u, r)
  | None => None
  end.
Proof. destruct c as [[] [] [] [] [] [] [] []]; reflexivity. Qed.

Lemma read_chars_escape s rest :
  read_chars (escape s +:+ String quote rest) = Some (s, rest).
Proof.
  induction s as [|c s IH]; [reflexivity|]. cbn [escape].
  by rewrite append_assoc, read_chars_escape_char, IH.
Qed.

Lemma read_chars_basestring s rest :
  ∃ t, encode_basestring_ascii s +:+ rest = String quote t
       ∧ read_chars t = Some (s, rest).
Proof.
  exists (escape s +:+ String quote rest). split.
  - unfold encode_basestring_ascii. by rewrite append_cons, append_assoc.
  - apply read_chars_escape.
Qed.

(** *** Integers *)

Lemma pretty_N_go_app (x : N) s r :
  pretty_N_go x s +:+ r = pretty_N_go x (s +:+ r).
Proof.
  revert s. induction (N.lt_wf_0 x) as [x _ IH]; intros s.
  assert (x = 0 ∨ 0 < x)%N as [->|?] by lia; [by rewrite !pretty_N_go_0|].
  rewrite (pretty_N_go_step x s), (pretty_N_go_step x (s +:+ r)) by done.
  rewrite IH by by apply N.div_lt. by rewrite append_cons.
Qed.

Lemma digit_cases (d : N) :
  (d < 10)%N →
  d = 0%N ∨ d = 1%N ∨ d = 2%N ∨ d = 3%N ∨ d = 4%N ∨ d = 5%N ∨ d = 6%N
  ∨ d = 7%N ∨ d = 8%N ∨ d = 9%N.
Proof. lia. Qed.

Lemma read_digits_char (d acc : N) s :
  (d < 10)%N →
  read_digits acc (String (pretty_N_char d) s) = read_digits (10 * acc + d) s.
Proof.
  intros H%digit_cases.
  repeat (destruct H as [->|H]; [reflexivity|]). by subst.
Qed.

Lemma read_digits_pretty (x : N) s :
  read_digits 0 (pretty_N_go x s) = read_digits x s.
Proof.
  revert s. induction (N.lt_wf_0 x) as [x _ IH]; intros s.
  assert (x = 0 ∨ 0 < x)%N as [->|?] by lia; [by rewrite pretty_N_go_0|].
  rewrite pretty_N_go_step by done. rewrite IH by by apply N.div_lt.
  rewrite read_digits_char by by apply N.mod_lt.
  f_equal. rewrite (N.div_mod x 10) at 3 by done. lia.
Qed.

Lemma read_digits_stop (acc : N) rest :
  follows rest → read_digits acc rest = (acc, rest).
Proof. by intros [->|[[r ->]|[r ->]]]. Qed.

Lemma pretty_N_go_head (x : N) s :
  (0 < x)%N →
  ∃ d t, (0 < d < 10)%N ∧ pretty_N_go x s = String (pretty_N_char d) t.
Proof.
  revert s. induction (N.lt_wf_0 x) as [x _ IH]; intros s Hx.
  rewrite pretty_N_go_step by done.
  destruct (N.eq_dec (x `div` 10) 0) as [H0|H0].
  - rewrite H0, pretty_N_go_0. exists (x `mod` 10)%N. eexists. split; [|done].
    assert (x `mod` 10 < 10)%N by by apply N.mod_lt.
    assert (x = 10 * (x `div` 10) + x `mod` 10)%N as Hdm by by apply N.div_mod.
    rewrite H0 in Hdm. lia.
  - apply IH; [by apply N.div_lt|]. by apply N.neq_0_lt_0.
Qed.

Lemma read_int_zero rest :
  follows rest → read_int (String "0" rest) = Some (0%Z, rest).
Proof. by intros [->|[[r ->]|[r ->]]]. Qed.

Lemma read_int_pos (d : N) t :
  (0 < d < 10)%N →
  read_int (String (pretty_N_char d) t) =
  match read_digits 0 (String (pretty_N_char d) t) with
  | (n, rest) =>
      if match rest with
         | String "." _ | String "e" _ | String "E" _ => true
         | _ => false
         end
      then None else Some (Z.of_N n, rest)
  end.
Proof.
  intros [H0 H%digit_cases].
  destruct H as [->|H]; [lia|].
  repeat (destruct H as [->|H]; [by destruct t|]). subst. by destruct t.
Qed.

Lemma read_int_neg (d : N) t :
  (0 < d < 10)%N →
  read_int (String "-" (String (pretty_N_char d) t)) =
  match read_digits 0 (String (pretty_N_char d) t) with
  | (n, rest) =>
      if match rest with
         | String "." _ | String "e" _ | String "E" _ => true
         | _ => false
         end
      then None else Some ((- Z.of_N n)%Z, rest)
  end.
Proof.
  intros [H0 H%digit_cases].
  destruct H as [->|H]; [lia|].
  repeat (destruct H as [->|H]; [by destruct t|]). subst. by destruct t.
Qed.

Lemma follows_no_float rest :
  follows rest →
  match rest with
  | String "." _ | String "e" _ | String "E" _ => true
  | _ => false
  end = false.
Proof. by intros [->|[[r ->]|[r ->]]]. Qed.

Lemma read_int_pretty (z : Z) rest :
  follows rest → read_int (pretty z +:+ rest) = Some (z, rest).
Proof.
  intros Hf. destruct z as [|x|x].
  - by apply read_int_zero.
  - change (pretty (Z.pos x)) with (pretty_N_go (N.pos x) EmptyString).
    rewrite pretty_N_go_app. change (EmptyString +:+ rest) with rest.
    destruct (pretty_N_go_head (N.pos x) rest) as (d & t & Hd & Heq); [lia|].
    rewrite Heq, read_int_pos, <- Heq by done.
    by rewrite read_digits_pretty, read_digits_stop, follows_no_float.
  - change (pretty (Z.neg x)) with ("-" +:+ pretty_N_go (N.pos x) EmptyString).
    rewrite append_assoc, pretty_N_go_app.
    change (EmptyString +:+ rest) with rest.
    change ("-" +:+ ?u) with (String "-" u).
    destruct (pretty_N_go_head (N.pos x) rest) as (d & t & Hd & Heq); [lia|].
    rewrite Heq, read_int_neg, <- Heq by done.
    by rewrite read_digits_pretty, read_digits_stop, follows_no_float.
Qed.

(** The first character of a number: a minus sign or a digit. *)
Lemma pretty_Z_head (z : Z) rest :
  ∃ c t, pretty z +:+ rest = String c t
         ∧ c ∈ list_ascii_of_string "-0123456789".
Proof.
  destruct z as [|x|x].
  - exists "0"%char, rest. split; [done|]. in_list.
  - change (pretty (Z.pos x)) with (pretty_N_go (N.pos x) EmptyString).
    rewrite pretty_N_go_app. change (EmptyString +:+ rest) with rest.
    destruct (pretty_N_go_head (N.pos x) rest) as (d & t & [_ Hd] & ->); [lia|].
    eexists _, _. split; [done|]. apply digit_cases in Hd.
    repeat (destruct Hd as [->|Hd]; [in_list|]). subst. in_list.
  - eexists "-"%char, _. split; [reflexivity|]. in_list.
Qed.

Lemma read_value_number fuel c t :
  c ∈ list_ascii_of_string "-0123456789" →
  read_value (S fuel) (String c t) =
  match read_int (String c t) with
  | Some (z, rest) => Some (JInt z, rest)
  | None => None
  end.
Proof.
  cbn. intros H. set_unfold.
  repeat (destruct H as [->|H]; [reflexivity|]). done.
Qed.

Lemma read_value_int fuel (z : Z) rest :
  follows rest →
  read_value (S fuel) (pretty z +:+ rest) = Some (JInt z, rest).
Proof.
  intros Hf. destruct (pretty_Z_head z rest) as (c & t & Heq & Hc).
  rewrite Heq, read_value_number, <- Heq by done.
  by rewrite read_int_pretty.
Qed.

(** *** Literals, strings, and the first character of a value *)

Lemma read_value_null fuel rest :
  read_value (S fuel) ("null" +:+ rest) = Some (JNull, rest).
Proof.
  destruct rest as [|c r]; [reflexivity|].
  change (read_value (S fuel) ("null" +:+ String c r))
    with (Some (JNull, String.substring 0 (String.length (String c r))
                          (String c r))).
  by rewrite substring_0_length.
Qed.

Lemma read_value_true fuel rest :
  read_value (S fuel) ("true" +:+ rest) = Some (JBool true, rest).
Proof.
  destruct rest as [|c r]; [reflexivity|].
  change (read_value (S fuel) ("true" +:+ String c r))
    with (Some (JBool true, String.substring 0 (String.length (String c r))
                          (String c r))).
  by rewrite substring_0_length.
Qed.

Lemma read_value_false fuel rest :
  read_value (S fuel) ("false" +:+ rest) = Some (JBool false, rest).
Proof.
  destruct rest as [|c r]; [reflexivity|].
  change (read_value (S fuel) ("false" +:+ String c r))
    with (Some (JBool false, String.substring 0 (String.length (String c r))
                          (String c r))).
  by rewrite substring_0_length.
Qed.

Lemma read_value_string fuel t :
  read_value (S fuel) (String quote t) =
  match read_chars t with
  | Some (u, rest) => Some (JStr u, rest)
  | None => None
  end.
Proof. reflexivity. Qed.

Lemma read_value_dict fuel s1 t :
  skip_ws s1 = String quote t →
  read_value (S fuel) (String "{" s1) =
  match read_members fuel s1 with
  | Some (d, rest) => Some (JDict d, rest)
  | None => None
  end.
Proof.
  intros Hs. cbn [read_value].
  change (skip_ws (String "{" s1)) with (String "{" s1). cbv iota beta.
  by rewrite Hs.
Qed.

Lemma read_members_S fuel s t :
  skip_ws s = String quote t →
  read_members (S fuel) s =
  match read_chars t with
  | Some (k, s2) =>
      match skip_ws s2 with
      | String ":" s3 =>
          match read_value fuel s3 with
          | Some (v, s4) =>
              match skip_ws s4 with
              | String "}" s5 => Some ([(k, v)], s5)
              | String "," s5 =>
                  match read_members fuel s5 with
                  | Some (d, rest) => Some ((k, v) :: d, rest)
                  | None => None
                  end
              | _ => None
              end
          | None => None
          end
      | _ => None
      end
  | None => None
  end.
Proof. intros Hs. cbn [read_members]. by rewrite Hs. Qed.

Lemma encode_head indent level o rest :
  ∃ c t, encode indent level o +:+ rest = String c t ∧ c ∈ value_heads.
Proof.
  assert (∀ c, c ∈ list_ascii_of_string "-0123456789ntf[{" → c ∈ value_heads)
    as Hin by (intros c Hc; unfold value_heads; apply elem_of_app; by left).
  destruct o as [| [] | z | s | [|v l] | [|kv d]].
  - eexists "n"%char, _. split; [reflexivity|]. apply Hin. in_list.
  - eexists "t"%char, _. split; [reflexivity|]. apply Hin. in_list.
  - eexists "f"%char, _. split; [reflexivity|]. apply Hin. in_list.
  - destruct (pretty_Z_head z rest) as (c & t & Heq & Hc).
    exists c, t. split; [done|]. apply Hin. cbn in Hc.
    rewrite !elem_of_cons, elem_of_nil in Hc.
    repeat (destruct Hc as [->|Hc]; [in_list|]). done.
  - eexists quote, _. split; [reflexivity|]. unfold value_heads.
    apply elem_of_app. right. in_list.
  - eexists "["%char, _. split; [reflexivity|]. apply Hin. in_list.
  - eexists "["%char, _. split; [reflexivity|]. apply Hin. in_list.
  - eexists "{"%char, _. split; [reflexivity|]. apply Hin. in_list.
  - eexists "{"%char, _. split; [reflexivity|]. apply Hin. in_list.
Qed.

Lemma skip_ws_encode indent level o rest :
  skip_ws (encode indent level o +:+ rest) = encode indent level o +:+ rest.
Proof.
  destruct (encode_head indent level o rest) as (c & t & -> & Hc).
  by apply skip_ws_head.
Qed.

(** *** Lists and dictionaries *)

Lemma concat_cons2 sep a b (l : list string) :
  String.concat sep (a :: b :: l) = a +:+ sep +:+ String.concat sep (b :: l).
Proof. reflexivity. Qed.

Lemma follows_comma r : follows (String "," r).
Proof. right. left. by eexists. Qed.

Lemma follows_newline i l r : follows (newline_indent i l +:+ r).
Proof. right. right. by eexists. Qed.

(** The items of a list, each read back by [read_value], then the
    closing bracket on its own line. *)
Lemma read_elements_encode indent level level' (l : list json) fuel rest :
  Forall (λ v, ∀ fuel rest, (need v ≤ fuel)%nat → follows rest →
               read_value fuel (encode indent level v +:+ rest) = Some (v, rest)) l →
  l ≠ [] →
  (fold_right (λ v acc, S (Nat.max (need v) acc)) 0 l ≤ fuel)%nat →
  read_elements fuel
    (newline_indent indent level
     +:+ String.concat ("," +:+ newline_indent indent level)
           (map (encode indent level) l)
     +:+ newline_indent indent level' +:+ String "]" rest)
  = Some (l, rest).
Proof.
  intros IH. revert fuel. induction IH as [|v l Hv _ IHl]; [done|].
  intros fuel _ Hfuel. cbn [fold_right] in Hfuel.
  destruct fuel as [|fuel]; [lia|]. rewrite read_elements_S.
  destruct l as [|v' l].
  - cbn [map String.concat].
    rewrite (read_value_ws _ _ (encode indent level v +:+
               newline_indent indent level' +:+ String "]" rest))
      by (by rewrite skip_ws_newline, !skip_ws_encode).
    rewrite Hv; [|lia|apply follows_newline].
    by rewrite skip_ws_newline.
  - cbn [map]. rewrite concat_cons2, !append_assoc.
    rewrite (read_value_ws _ _ (encode indent level v +:+ "," +:+
               newline_indent indent level +:+
               String.concat ("," +:+ newline_indent indent level)
                 (encode indent level v' :: map (encode indent level) l) +:+
               newline_indent indent level' +:+ String "]" rest))
      by (by rewrite skip_ws_newline, !skip_ws_encode).
    rewrite Hv; [|lia|apply follows_comma].
    change (skip_ws ("," +:+ ?u)) with (String "," u). cbv iota beta.
    change (encode indent level v' :: map (encode indent level) l)
      with (map (encode indent level) (v' :: l)).
    rewrite IHl; [done|done|]. cbn [fold_right] in *. lia.
Qed.

Lemma read_members_encode indent level level' (d : list (string * json))
    fuel rest :
  Forall (λ kv, ∀ fuel rest, (need (snd kv) ≤ fuel)%nat → follows rest →
                read_value fuel (encode indent level (snd kv) +:+ rest)
                = Some (snd kv, rest)) d →
  d ≠ [] →
  (fold_right (λ kv acc, S (Nat.max (need (snd kv)) acc)) 0 d ≤ fuel)%nat →
  read_members fuel
    (newline_indent indent level
     +:+ String.concat ("," +:+ newline_indent indent level)
           (map (λ kv, encode_basestring_ascii (fst kv) +:+ ": "
                       +:+ encode indent level (snd kv)) d)
     +:+ newline_indent indent level' +:+ String "}" rest)
  = Some (d, rest).
Proof.
  intros IH. revert fuel. induction IH as [|[k v] d Hv _ IHd]; [done|].
  intros fuel _ Hfuel. cbn [fold_right snd] in Hfuel. cbn [snd] in Hv.
  destruct fuel as [|fuel]; [lia|].
  destruct d as [|kv' d].
  - cbn [map String.concat fst snd]. rewrite !append_assoc.
    destruct (read_chars_basestring k
                (": " +:+ encode indent level v +:+
                 newline_indent indent level' +:+ String "}" rest))
      as (t & Heq & Hk).
    rewrite (read_members_S _ _ t) by (by rewrite skip_ws_newline, Heq).
    rewrite Hk.
    change (skip_ws (": " +:+ ?u)) with (String ":" (String " " u)).
    cbv iota beta.
    rewrite (read_value_ws _ _ (encode indent level v +:+
               newline_indent indent level' +:+ String "}" rest))
      by (by change (skip_ws (String " " ?u)) with (skip_ws u)).
    rewrite Hv; [|lia|apply follows_newline].
    by rewrite skip_ws_newline.
  - cbn [map]. rewrite concat_cons2. cbn [fst snd]. rewrite !append_assoc.
    set (more := String.concat _ (_ :: map _ d)).
    destruct (read_chars_basestring k
                (": " +:+ encode indent level v +:+ "," +:+
                 newline_indent indent level +:+ more +:+
                 newline_indent indent level' +:+ String "}" rest))
      as (t & Heq & Hk).
    rewrite (read_members_S _ _ t) by (by rewrite skip_ws_newline, Heq).
    rewrite Hk.
    change (skip_ws (": " +:+ ?u)) with (String ":" (String " " u)).
    cbv iota beta.
    rewrite (read_value_ws _ _ (encode indent level v +:+ "," +:+
               newline_indent indent level +:+ more +:+
               newline_indent indent level' +:+ String "}" rest))
      by (by change (skip_ws (String " " ?u)) with (skip_ws u)).
    rewrite Hv; [|lia|apply follows_comma].
    change (skip_ws ("," +:+ ?u)) with (String "," u). cbv iota beta.
    unfold more.
    change ((λ kv, encode_basestring_ascii (fst kv) +:+ ": "
                   +:+ encode indent level (snd kv)) kv' :: map _ d)
      with (map (λ kv, encode_basestring_ascii (fst kv) +:+ ": "
                       +:+ encode indent level (snd kv)) (kv' :: d)).
    rewrite IHd; [done|done|]. cbn [fold_right] in *. lia.
Qed.

Lemma concat_encode_head indent level sep v (l : list json) rest :
  ∃ c t, String.concat sep (map (encode indent level) (v :: l)) +:+ rest
         = String c t ∧ c ∈ value_heads.
Proof.
  destruct l as [|v' l].
  - apply encode_head.
  - cbn [map]. rewrite concat_cons2, append_assoc. apply encode_head.
Qed.

Lemma concat_member_head indent level sep kv (d : list (string * json)) rest :
  ∃ t, String.concat sep
         (map (λ kv, encode_basestring_ascii (fst kv) +:+ ": "
                     +:+ encode indent level (snd kv)) (kv :: d)) +:+ rest
       = String quote t.
Proof.
  destruct d as [|kv' d].
  - cbn [map String.concat]. unfold encode_basestring_ascii.
    rewrite !append_cons. by eexists.
  - cbn [map]. rewrite concat_cons2. unfold encode_basestring_ascii at 1.
    rewrite !append_cons. by eexists.
Qed.

(** [read_value] reads back what [encode] wrote, given the fuel the
    value needs, and stops right after it. *)
Lemma read_value_encode indent o :
  ∀ level fuel rest, (need o ≤ fuel)%nat → follows rest →
    read_value fuel (encode indent level o +:+ rest) = Some (o, rest).
Proof.
  induction o as [| b | z | s | l IH | d IH] using json_induction;
    intros level [|fuel] rest Hfuel Hf; try (cbn in Hfuel; lia).
  - apply read_value_null.
  - destruct b; [apply read_value_true | apply read_value_false].
  - by apply read_value_int.
  - destruct (read_chars_basestring s rest) as (t & Heq & Ht).
    change (encode indent level (JStr s)) with (encode_basestring_ascii s).
    by rewrite Heq, read_value_string, Ht.
  - destruct l as [|v l]; [reflexivity|].
    change (encode indent level (JList (v :: l)))
      with ("[" +:+ newline_indent indent (S level)
            +:+ String.concat ("," +:+ newline_indent indent (S level))
                  (map (encode indent (S level)) (v :: l))
            +:+ newline_indent indent level +:+ "]").
    rewrite !append_assoc. change ("[" +:+ ?u) with (String "[" u).
    change ("]" +:+ rest) with (String "]" rest).
    destruct (concat_encode_head indent (S level)
                ("," +:+ newline_indent indent (S level)) v l
                (newline_indent indent level +:+ String "]" rest))
      as (c & t & Heq & Hc).
    rewrite (read_value_list _ _ c t);
      [| by rewrite skip_ws_newline, Heq, skip_ws_head | done].
    rewrite read_elements_encode; [done| |done|].
    + eapply Forall_impl; [exact IH|]. intros x Hx. apply Hx.
    + cbn [need] in Hfuel. lia.
  - destruct d as [|kv d]; [reflexivity|].
    change (encode indent level (JDict (kv :: d)))
      with ("{" +:+ newline_indent indent (S level)
            +:+ String.concat ("," +:+ newline_indent indent (S level))
                  (map (λ kv, encode_basestring_ascii (fst kv) +:+ ": "
                              +:+ encode indent (S level) (snd kv)) (kv :: d))
            +:+ newline_indent indent level +:+ "}").
    rewrite !append_assoc. change ("{" +:+ ?u) with (String "{" u).
    change ("}" +:+ rest) with (String "}" rest).
    destruct (concat_member_head indent (S level)
                ("," +:+ newline_indent indent (S level)) kv d
                (newline_indent indent level +:+ String "}" rest))
      as (t & Heq).
    rewrite (read_value_dict _ _ t) by (by rewrite skip_ws_newline, Heq).
    rewrite read_members_encode; [done| |done|].
    + eapply Forall_impl; [exact IH|]. intros x Hx. apply Hx.
    + cbn [need] in Hfuel. lia.
Qed.

(** *** Fuel *)

Lemma need_concat {A} (f : A → nat) (g : A → string) sep (l : list A) :
  (1 ≤ String.length sep)%nat →
  Forall (λ x, (f x ≤ String.length (g x))%nat) l →
  (fold_right (λ x acc, S (Nat.max (f x) acc)) 0 l
   ≤ String.length (String.concat sep (map g l)) + 1)%nat.
Proof.
  intros Hsep H. induction H as [|x l Hx _ IH]; [cbn; lia|].
  destruct l as [|y l].
  - cbn. lia.
  - cbn [map]. rewrite concat_cons2, !length_append.
    cbn [fold_right map] in *. lia.
Qed.

(** The text of a value is at least as long as the fuel its reader
    needs, so the fuel [loads] gives is always enough. *)
Lemma need_le_length indent o :
  ∀ level, (need o ≤ String.length (encode indent level o))%nat.
Proof.
  induction o as [| b | z | s | l IH | d IH] using json_induction;
    intros level.
  - cbn. lia.
  - destruct b; cbn; lia.
  - cbn [need encode]. destruct (pretty_Z_head z EmptyString) as (c & t & Heq & _).
    rewrite append_nil_r in Heq. rewrite Heq. cbn. lia.
  - cbn [need encode]. unfold encode_basestring_ascii. cbn. lia.
  - destruct l as [|v l]; [cbn; lia|].
    change (encode indent level (JList (v :: l)))
      with ("[" +:+ newline_indent indent (S level)
            +:+ String.concat ("," +:+ newline_indent indent (S level))
                  (map (encode indent (S level)) (v :: l))
            +:+ newline_indent indent level +:+ "]").
    pose proof (need_concat need (encode indent (S level))
                  ("," +:+ newline_indent indent (S level)) (v :: l)) as H.
    rewrite !length_append. cbn [need].
    change (String.length "[") with 1%nat.
    unfold newline_indent at 1. cbn [String.length].
    cut (Forall (λ x, (need x ≤ String.length (encode indent (S level) x))%nat)
           (v :: l)); [intros HF; specialize (H ltac:(rewrite append_cons; cbn [String.length]; lia) HF); lia|].
    eapply Forall_impl; [exact IH|]. intros x Hx. apply Hx.
  - destruct d as [|kv d]; [cbn; lia|].
    change (encode indent level (JDict (kv :: d)))
      with ("{" +:+ newline_indent indent (S level)
            +:+ String.concat ("," +:+ newline_indent indent (S level))
                  (map (λ kv, encode_basestring_ascii (fst kv) +:+ ": "
                              +:+ encode indent (S level) (snd kv)) (kv :: d))
            +:+ newline_indent indent level +:+ "}").
    pose proof (need_concat (λ kv, need (snd kv))
                  (λ kv, encode_basestring_ascii (fst kv) +:+ ": "
                         +:+ encode indent (S level) (snd kv))
                  ("," +:+ newline_indent indent (S level)) (kv :: d)) as H.
    rewrite !length_append. cbn [need].
    change (String.length "{") with 1%nat.
    unfold newline_indent at 1. cbn [String.length].
    cut (Forall (λ kv, (need (snd kv)
                        ≤ String.length
                            (encode_basestring_ascii (fst kv) +:+ ": "
                             +:+ encode indent (S level) (snd kv)))%nat)
           (kv :: d)); [intros HF; specialize (H ltac:(rewrite append_cons; cbn [String.length]; lia) HF); lia|].
    eapply Forall_impl; [exact IH|]. intros x Hx. cbn beta.
    rewrite !length_append. specialize (Hx (S level)). lia.
Qed.

(** *** The round trip *)

(** The reader inverts the encoder at every nesting level. *)
Lemma loads_encode (o : json) (indent level : nat) :
  loads (encode indent level o) = Some o.
Proof.
  unfold loads.
  pose proof (need_le_length indent o level) as Hn.
  rewrite <- (append_nil_r (encode indent level o)) at 2.
  rewrite read_value_encode; [done|lia|by left].
Qed.

(** X9: the text [json.dump] writes is a JSON text that reads back to
    the value dumped.  For every Python value of type [json] (strings of
    code points below 256, dictionaries with distinct keys, integers
    within the digit limit of the interpreter) and every indent, the
    reader [loads] takes the whole text and returns exactly that value:
    the same nesting, the same strings after unescaping, the same
    integers, and the members of every dictionary in the order in which
    they were written. *)
Theorem X9_loads_dumps (o : json) (indent : nat) :
  python_value o = true → loads (dumps o indent) = Some o.
Proof. intros _. apply loads_encode. Qed.

Lemma X9_witness :
  loads (dumps dishonesty_matrix 2) = Some dishonesty_matrix
  ∧ loads (dumps extraction_protocol 2) = Some extraction_protocol.
Proof.
  split.
  - apply (X9_loads_dumps dishonesty_matrix 2). vm_compute. reflexivity.
  - apply (X9_loads_dumps extraction_protocol 2). vm_compute. reflexivity.
Defined.

(** X10: the text determines the value.  Two different Python values of
    type [json] never have the same text, even when they are dumped with
    different indents; so the two files of the script, and the files of
    any two versions of its dictionaries, differ. *)
Theorem X10_dumps_injective (o1 o2 : json) (indent1 indent2 : nat) :
  python_value o1 = true → python_value o2 = true →
  o1 ≠ o2 → dumps o1 indent1 ≠ dumps o2 indent2.
Proof.
  intros _ _ Hne H. apply Hne. apply (f_equal loads) in H. unfold dumps in H.
  rewrite !loads_encode in H. congruence.
Qed.

Lemma X10_witness :
  dumps dishonesty_matrix 2 ≠ dumps extraction_protocol 4.
Proof.
  apply (X10_dumps_injective dishonesty_matrix extraction_protocol 2 4).
  - vm_compute. reflexivity.
  - vm_compute. reflexivity.
  - discriminate.
Defined.

End RoundTrip.
